(** * easee_hass: key-path dispatch, state update and device conditions

    A shallow embedding of [custom_components/easee/entity.py] and
    [custom_components/easee/device_condition.py].

    Python objects are modelled by the inductive type [value]; the buckets of
    the controller's data object are dictionaries with string keys
    ([gmap string value]) that may be [None]; raising is modelled by a
    state-and-exception monad whose state (the data object, the entity's
    [_state] attribute and the logger's records) survives a raise, as it does
    in Python. *)

From Stdlib Require Import ZArith String Ascii List.
From Stdlib Require Import Floats.PrimFloat Floats.SpecFloat Floats.FloatOps.
From stdpp Require Import base option list gmap strings.

Import ListNotations.
Local Open Scope string_scope.
Local Open Scope Z_scope.

(** ** Python values *)

(** A [datetime]: wall-clock microseconds, and the offset of its [tzinfo] in
    minutes ([None] for a naive datetime). *)
Record datetime := Datetime {
  dt_wall : Z;
  dt_utcoffset : option Z;
}.

Inductive value :=
  | VNone
  | VBool (b : bool)
  | VInt (n : Z)
  | VFloat (f : float)
  | VStr (s : string)
  | VDatetime (t : datetime).

(** A bucket of the data object: a dictionary keyed by strings. *)
Abbreviation dict := (gmap string value).

(** ** Exceptions and log records *)

Inductive exn :=
  | ValueError
  | IndexError (msg : string)
  | KeyError (key : string)
  | TypeError
  | AttributeError
  | OverflowError.

Inductive level := DEBUG | ERROR.

Record LogRecord := Log {
  levelname : level;
  message : string;
}.

(** ** The data object supplied by the controller *)

Record ProductData := {
  product : string;                 (* data.product.id *)
  config : option dict;
  state : option dict;
  circuit : option dict;
  site : option dict;
  cost_day : option dict;
  cost_month : option dict;
  cost_year : option dict;
  schedule : option dict;
  weekly_schedule : option dict;
}.

(** Attribute assignment on the data object, one function per bucket. *)
Definition set_config (b : option dict) (d : ProductData) : ProductData :=
  {| product := product d; config := b; state := state d;
     circuit := circuit d; site := site d; cost_day := cost_day d;
     cost_month := cost_month d; cost_year := cost_year d;
     schedule := schedule d; weekly_schedule := weekly_schedule d |}.

Definition set_state (b : option dict) (d : ProductData) : ProductData :=
  {| product := product d; config := config d; state := b;
     circuit := circuit d; site := site d; cost_day := cost_day d;
     cost_month := cost_month d; cost_year := cost_year d;
     schedule := schedule d; weekly_schedule := weekly_schedule d |}.

Definition set_circuit (b : option dict) (d : ProductData) : ProductData :=
  {| product := product d; config := config d; state := state d;
     circuit := b; site := site d; cost_day := cost_day d;
     cost_month := cost_month d; cost_year := cost_year d;
     schedule := schedule d; weekly_schedule := weekly_schedule d |}.

Definition set_site (b : option dict) (d : ProductData) : ProductData :=
  {| product := product d; config := config d; state := state d;
     circuit := circuit d; site := b; cost_day := cost_day d;
     cost_month := cost_month d; cost_year := cost_year d;
     schedule := schedule d; weekly_schedule := weekly_schedule d |}.

Definition set_schedule (b : option dict) (d : ProductData) : ProductData :=
  {| product := product d; config := config d; state := state d;
     circuit := circuit d; site := site d; cost_day := cost_day d;
     cost_month := cost_month d; cost_year := cost_year d;
     schedule := b; weekly_schedule := weekly_schedule d |}.

Definition set_weekly_schedule (b : option dict) (d : ProductData) : ProductData :=
  {| product := product d; config := config d; state := state d;
     circuit := circuit d; site := site d; cost_day := cost_day d;
     cost_month := cost_month d; cost_year := cost_year d;
     schedule := schedule d; weekly_schedule := b |}.

(** ** Program state and the monad of statements *)

Record Heap := {
  data : ProductData;
  _state : value;
  records : list LogRecord;
}.

Definition with_data (d : ProductData) (h : Heap) : Heap :=
  {| data := d; _state := _state h; records := records h |}.

Definition with_state (v : value) (h : Heap) : Heap :=
  {| data := data h; _state := v; records := records h |}.

Definition with_record (r : LogRecord) (h : Heap) : Heap :=
  {| data := data h; _state := _state h; records := records h ++ [r] |}.

Definition result (A : Type) : Type := (exn + A)%type.

Definition M (A : Type) : Type := Heap -> result A * Heap.

Definition ret {A} (a : A) : M A := fun h => (inr a, h).

Definition raise {A} (e : exn) : M A := fun h => (inl e, h).

Definition bind {A B} (m : M A) (k : A -> M B) : M B :=
  fun h => match m h with
           | (inr a, h') => k a h'
           | (inl e, h') => (inl e, h')
           end.

(** [try m except e: handler e]; a handler re-raises what it does not catch. *)
Definition try_except {A} (m : M A) (handler : exn -> M A) : M A :=
  fun h => match m h with
           | (inr a, h') => (inr a, h')
           | (inl e, h') => handler e h'
           end.

Definition lift {A} (r : result A) : M A := fun h => (r, h).

Definition get_data : M ProductData := fun h => (inr (data h), h).
Definition put_data (d : ProductData) : M unit := fun h => (inr tt, with_data d h).
Definition get_state : M value := fun h => (inr (_state h), h).
Definition put_state (v : value) : M unit := fun h => (inr tt, with_state v h).
Definition logger (l : level) (msg : string) : M unit :=
  fun h => (inr tt, with_record (Log l msg) h).

Declare Scope py_scope.
Delimit Scope py_scope with py.
Notation "x <- m ;; k" := (bind m (fun x => k))
  (at level 100, m at next level, right associativity) : py_scope.
Notation "m ;; k" := (bind m (fun _ => k))
  (at level 100, right associativity) : py_scope.
Local Open Scope py_scope.

(** ** Builtins *)

(** [s.split(".")]: cut at every dot; never the empty list. *)
Fixpoint split_dot (s : string) : list string :=
  match s with
  | EmptyString => [EmptyString]
  | String c s' =>
      if Ascii.eqb c "."%char then EmptyString :: split_dot s'
      else match split_dot s' with
           | [] => [String c EmptyString]
           | p :: ps => String c p :: ps
           end
  end.

(** [first, second = key.split(".")] *)
Definition unpack2 (parts : list string) : M (string * string) :=
  match parts with
  | [first; second] => ret (first, second)
  | _ => raise ValueError
  end.

(** [bucket[second]] *)
Definition getitem (bucket : option dict) (second : string) : M value :=
  match bucket with
  | None => raise TypeError
  | Some b => match b !! second with
              | Some v => ret v
              | None => raise (KeyError second)
              end
  end.

(** [bucket[second] = value], as the updated bucket *)
Definition setitem (bucket : option dict) (second : string) (v : value)
  : M (option dict) :=
  match bucket with
  | None => raise TypeError
  | Some b => ret (Some (<[second := v]> b))
  end.

(** ** ChargerEntity: key-path dispatch *)

Section KeyPath.

(** [homeassistant.util.dt.as_local], the host's conversion of a datetime to
    the local time zone. *)
Variable as_local : datetime -> datetime.

(** [if isinstance(value, datetime): value = dt_util.as_local(value)] *)
Definition localize (v : value) : value :=
  match v with
  | VDatetime t => VDatetime (as_local t)
  | _ => v
  end.

Definition set_value_from_key (key : string) (v : value) : M value :=
  parts <- unpack2 (split_dot key) ;;
  let '(first, second) := parts in
  d <- get_data ;;
  (if String.eqb first "config" then
     match config d with
     | Some _ => b <- setitem (config d) second v ;; put_data (set_config b d)
     | None => ret tt
     end
   else if String.eqb first "state" then
     match state d with
     | Some _ => b <- setitem (state d) second v ;; put_data (set_state b d)
     | None => ret tt
     end
   else if String.eqb first "circuit" then
     b <- setitem (circuit d) second v ;; put_data (set_circuit b d)
   else if String.eqb first "site" then
     b <- setitem (site d) second v ;; put_data (set_site b d)
   else if String.eqb first "schedule" then
     match schedule d with
     | Some _ => b <- setitem (schedule d) second v ;; put_data (set_schedule b d)
     | None => ret tt
     end
   else if String.eqb first "weekly_schedule" then
     match weekly_schedule d with
     | Some _ =>
         b <- setitem (weekly_schedule d) second v ;;
         put_data (set_weekly_schedule b d)
     | None => ret tt
     end
   else
     logger ERROR ("Unknown first part of key: " ++ key) ;;
     raise (IndexError "Unknown first part of key")) ;;
  ret v.

Definition get_value_from_key (key : string) : M value :=
  try_except
    (parts <- unpack2 (split_dot key) ;;
     let '(first, second) := parts in
     d <- get_data ;;
     v <- (if String.eqb first "config" then getitem (config d) second
           else if String.eqb first "state" then getitem (state d) second
           else if String.eqb first "circuit" then getitem (circuit d) second
           else if String.eqb first "site" then getitem (site d) second
           else if String.eqb first "cost_day" then getitem (cost_day d) second
           else if String.eqb first "cost_month" then getitem (cost_month d) second
           else if String.eqb first "cost_year" then getitem (cost_year d) second
           else if String.eqb first "schedule" then
             match schedule d with
             | Some _ => getitem (schedule d) second
             | None => ret VNone
             end
           else if String.eqb first "weekly_schedule" then
             match weekly_schedule d with
             | Some _ => getitem (weekly_schedule d) second
             | None => ret VNone
             end
           else
             logger ERROR ("Unknown first part of key: " ++ key) ;;
             raise (IndexError "Unknown first part of key")) ;;
     ret (localize v))
    (fun e => match e with
              | KeyError _ => ret (VStr "")
              | _ => raise e
              end).

End KeyPath.

(** ** Rounding helpers *)

(** [UnitOfPower.WATT] and [UnitOfEnergy.WATT_HOUR] of the host; both are
    string enumerations, compared with the unit by [==]. *)
Definition WATT : string := "W".
Definition WATT_HOUR : string := "Wh".

(** [s * n] on strings *)
Fixpoint str_repeat (s : string) (n : nat) : string :=
  match n with
  | O => EmptyString
  | S n' => s ++ str_repeat s n'
  end.

(** The integer nearest to [n / p], ties to the even one. *)
Definition round_half_even (n p : Z) : Z :=
  let q := n / p in
  let r := n mod p in
  if 2 * r <? p then q
  else if p <? 2 * r then q + 1
  else if Z.even q then q else q + 1.

(** [int.__round__(ndigits)]: the integer itself for [ndigits >= 0], else the
    nearest multiple of [10 ** -ndigits], ties to the even multiple. *)
Definition int_round (n ndigits : Z) : Z :=
  if 0 <=? ndigits then n
  else round_half_even n (10 ^ (- ndigits)) * 10 ^ (- ndigits).

Definition int_of_bool (b : bool) : Z := if b then 1 else 0.

(** What [float.__round__] can raise: [OverflowError] on an infinity or on a
    result out of range, [ValueError] on a NaN. It never raises [TypeError]. *)
Inductive float_round_error := FloatOverflow | FloatNaN.

Definition exn_of_float_round_error (e : float_round_error) : exn :=
  match e with
  | FloatOverflow => OverflowError
  | FloatNaN => ValueError
  end.

Section Rounding.

(** [float.__round__()] and [float.__round__(ndigits)] of the interpreter. *)
Variable float_round : float -> float_round_error + Z.
Variable float_round_ndigits : float -> Z -> float_round_error + float.

(** [value * 1000] *)
Definition mul_1000 (v : value) : result value :=
  match v with
  | VBool b => inr (VInt (int_of_bool b * 1000))
  | VInt n => inr (VInt (n * 1000))
  | VFloat f => inr (VFloat (PrimFloat.mul f 1000%float))
  | VStr s => inr (VStr (str_repeat s 1000))
  | VNone | VDatetime _ => inl TypeError
  end.

(** [round(value, decimals)] *)
Definition py_round (v : value) (decimals : option Z) : result value :=
  match v, decimals with
  | VBool b, None => inr (VInt (int_of_bool b))
  | VBool b, Some d => inr (VInt (int_round (int_of_bool b) d))
  | VInt n, None => inr (VInt n)
  | VInt n, Some d => inr (VInt (int_round n d))
  | VFloat f, None =>
      match float_round f with
      | inr z => inr (VInt z)
      | inl e => inl (exn_of_float_round_error e)
      end
  | VFloat f, Some d =>
      match float_round_ndigits f d with
      | inr g => inr (VFloat g)
      | inl e => inl (exn_of_float_round_error e)
      end
  | _, _ => inl TypeError
  end.

(** [unit in (UnitOfPower.WATT, UnitOfEnergy.WATT_HOUR)] *)
Definition is_watt_unit (unit : option string) : bool :=
  match unit with
  | Some u => String.eqb u WATT || String.eqb u WATT_HOUR
  | None => false
  end.

Definition round_to_dec (v : value) (decimals : option Z) (unit : option string)
  : result value :=
  match (if is_watt_unit unit then mul_1000 v else inr v) with
  | inl e => inl e
  | inr v' =>
      let decimals' := if is_watt_unit unit then None else decimals in
      match py_round v' decimals' with
      | inl TypeError => inr v'
      | r => r
      end
  end.

Definition round_2_dec (v : value) (unit : option string) : result value :=
  round_to_dec v (Some 2) unit.

Definition round_1_dec (v : value) (unit : option string) : result value :=
  round_to_dec v (Some 1) unit.

Definition round_0_dec (v : value) (unit : option string) : result value :=
  round_to_dec v None unit.

End Rounding.

(** ** ChargerEntity: state update *)

Record ChargerEntity := {
  _entity_name : string;
  _state_key : string;
  _units : option string;
  _convert_units_func : option (value -> option string -> result value);
  _state_func : option (option dict -> result value);
}.

Section Update.

Variable as_local : datetime -> datetime.

(** [self._state == ""] *)
Definition is_empty_str (v : value) : bool :=
  match v with
  | VStr EmptyString => true
  | _ => false
  end.

(** [if cond: self._state = self._state_func(bucket)] *)
Definition apply_state_func (cond : bool) (f : option dict -> result value)
    (bucket : ProductData -> option dict) : M unit :=
  if cond then d <- get_data ;; r <- lift (f (bucket d)) ;; put_state r
  else ret tt.

(** The body of the [try] statement of [async_update]. *)
Definition update_state (self : ChargerEntity) : M unit :=
  v <- get_value_from_key as_local (_state_key self) ;;
  put_state v ;;
  s <- get_state ;;
  (if is_empty_str s then put_state VNone else ret tt) ;;
  match _state_func self with
  | Some f =>
      apply_state_func (String.prefix "state" (_state_key self)) f state ;;
      apply_state_func (String.prefix "config" (_state_key self)) f config ;;
      apply_state_func (String.prefix "schedule" (_state_key self)) f schedule ;;
      apply_state_func (String.prefix "weekly_schedule" (_state_key self)) f
        weekly_schedule
  | None => ret tt
  end ;;
  match _convert_units_func self with
  | Some convert =>
      s <- get_state ;; r <- lift (convert s (_units self)) ;; put_state r
  | None => ret tt
  end.

(** Its [except] clauses. *)
Definition update_except (self : ChargerEntity) (e : exn) : M unit :=
  match e with
  | IndexError _ =>
      raise (IndexError ("Wrong key for entity: " ++ _state_key self))
  | AttributeError | KeyError _ | TypeError => ret tt
  | _ => raise e
  end.

Definition async_update (self : ChargerEntity) : M unit :=
  d <- get_data ;;
  logger DEBUG ("Entity async_update : " ++ product d ++ " " ++ _entity_name self) ;;
  put_state VNone ;;
  try_except (update_state self) (update_except self).

End Update.

(** ** Device conditions *)

(** An entry of the host's entity registry, with the attributes read here. *)
Record RegistryEntry := {
  entity_id : string;
  translation_key : option string;
}.

(** Keys of a condition configuration, constants of the host. *)
Definition CONF_CONDITION : string := "condition".
Definition CONF_DEVICE_ID : string := "device_id".
Definition CONF_DOMAIN : string := "domain".
Definition CONF_ENTITY_ID : string := "entity_id".
Definition CONF_TYPE : string := "type".

Section DeviceCondition.

(** [DOMAIN] and [EASEE_STATUS] of the integration's [const] module: the
    domain name and the table from status code to status string, in the
    order of its items. *)
Variable DOMAIN : string.
Variable EASEE_STATUS : list (Z * string).

(** The host's entity registry and its [async_entries_for_device]. *)
Variable EntityRegistry : Type.
Variable async_entries_for_device : EntityRegistry -> string -> list RegistryEntry.

Definition CONDITION_TYPES : list string := map snd EASEE_STATUS.

(** [entry.translation_key == "easee_status"] *)
Definition is_easee_status (entry : RegistryEntry) : bool :=
  match translation_key entry with
  | Some k => String.eqb k "easee_status"
  | None => false
  end.

(** The body of the loop over the entries. *)
Definition add_conditions (device_id : string)
    (conditions : list (gmap string string)) (entry : RegistryEntry)
  : list (gmap string string) :=
  if is_easee_status entry then
    let base_condition : gmap string string :=
      <[CONF_ENTITY_ID := entity_id entry]>
        (<[CONF_DOMAIN := DOMAIN]>
           (<[CONF_DEVICE_ID := device_id]>
              (<[CONF_CONDITION := "device"]> ∅))) in
    conditions ++ map (fun cond => <[CONF_TYPE := cond]> base_condition) CONDITION_TYPES
  else conditions.

Definition async_get_conditions (registry : EntityRegistry) (device_id : string)
  : list (gmap string string) :=
  fold_left (add_conditions device_id)
    (async_entries_for_device registry device_id) [].

(** The condition dictionary the specification describes for one entity and
    one condition type. *)
Definition condition_for (device_id : string) (entry : RegistryEntry)
    (cond : string) : gmap string string :=
  list_to_map
    [ ("condition", "device"); ("device_id", device_id); ("domain", DOMAIN);
      ("entity_id", entity_id entry); ("type", cond) ].

End DeviceCondition.

(** ** Vocabulary of the specification *)

(** The bucket prefixes the specification lists. *)
Definition recognized_prefixes : list string :=
  [ "config"; "state"; "circuit"; "site"; "cost_day"; "cost_month";
    "cost_year"; "schedule"; "weekly_schedule" ].

(** The prefixes [set_value_from_key] has a branch for. *)
Definition settable_prefixes : list string :=
  [ "config"; "state"; "circuit"; "site"; "schedule"; "weekly_schedule" ].

(** The buckets of the data object, by name. *)
Definition buckets (d : ProductData) : list (string * option dict) :=
  [ ("config", config d); ("state", state d); ("circuit", circuit d);
    ("site", site d); ("cost_day", cost_day d); ("cost_month", cost_month d);
    ("cost_year", cost_year d); ("schedule", schedule d);
    ("weekly_schedule", weekly_schedule d) ].

(** The bucket a prefix names: [None] for an unknown prefix, [Some None] for a
    bucket that is [None]. *)
Definition bucket_named (first : string) (d : ProductData)
  : option (option dict) :=
  snd <$> List.find (fun p => String.eqb first (fst p)) (buckets d).

(** The data object with the bucket named [first] replaced, all else kept. *)
Definition store_bucket (first : string) (b : option dict) (d : ProductData)
  : ProductData :=
  {| product := product d;
     config := if String.eqb first "config" then b else config d;
     state := if String.eqb first "state" then b else state d;
     circuit := if String.eqb first "circuit" then b else circuit d;
     site := if String.eqb first "site" then b else site d;
     cost_day := if String.eqb first "cost_day" then b else cost_day d;
     cost_month := if String.eqb first "cost_month" then b else cost_month d;
     cost_year := if String.eqb first "cost_year" then b else cost_year d;
     schedule := if String.eqb first "schedule" then b else schedule d;
     weekly_schedule :=
       if String.eqb first "weekly_schedule" then b else weekly_schedule d |}.

(** Membership of a prefix in a list of names, as a test. *)
Definition named_in (names : list string) (first : string) : bool :=
  existsb (String.eqb first) names.

(** The prefixes whose [None] bucket [set_value_from_key] guards against. *)
Definition guarded_on_set : list string :=
  [ "config"; "state"; "schedule"; "weekly_schedule" ].

(** The prefixes whose [None] bucket [get_value_from_key] guards against. *)
Definition guarded_on_get : list string := [ "schedule"; "weekly_schedule" ].

(** Number of dots of a key. *)
Fixpoint count_dots (s : string) : nat :=
  match s with
  | EmptyString => O
  | String c s' => (if Ascii.eqb c "."%char then 1 else 0)%nat + count_dots s'
  end.

(** The record logged for an unknown prefix. *)
Definition unknown_prefix_record (key : string) : LogRecord :=
  Log ERROR ("Unknown first part of key: " ++ key).


(** The state in which [async_update] enters its [try] statement: the debug
    record is logged and [_state] is reset to [None]. *)
Definition entered (self : ChargerEntity) (h : Heap) : Heap :=
  with_state VNone
    (with_record
       (Log DEBUG ("Entity async_update : " ++ product (data h) ++ " "
                   ++ _entity_name self)) h).

(** A state function that reads one key of the bucket it is given, as
    [lambda bucket: bucket[name]] does. *)
Definition read_key (name : string) (bucket : option dict) : result value :=
  match bucket with
  | None => inl TypeError
  | Some b => match b !! name with
              | Some v => inr v
              | None => inl (KeyError name)
              end
  end.

Definition power_sensor : ChargerEntity :=
  {| _entity_name := "power"; _state_key := "state.totalPower";
     _units := Some "kW"; _convert_units_func := None;
     _state_func := Some (read_key "chargerOpMode") |}.

Definition site_sensor : ChargerEntity :=
  {| _entity_name := "site_name"; _state_key := "site.name";
     _units := None; _convert_units_func := None; _state_func := None |}.

(** The numeric values: [bool], [int] and [float]. *)
Definition is_numeric (v : value) : bool :=
  match v with
  | VBool _ | VInt _ | VFloat _ => true
  | _ => false
  end.

(** "The value multiplied by 1000 and rounded to the nearest integer", for a
    numeric value: an integer product is its own rounding, a float product is
    rounded by the interpreter's [float.__round__()]. *)
Definition times_1000_rounded (float_round : float -> float_round_error + Z)
    (v : value) : result value :=
  match v with
  | VBool b => inr (VInt (int_of_bool b * 1000))
  | VInt n => inr (VInt (n * 1000))
  | VFloat f =>
      match float_round (PrimFloat.mul f 1000%float) with
      | inr z => inr (VInt z)
      | inl e => inl (exn_of_float_round_error e)
      end
  | _ => inl TypeError
  end.

(** The interpreter's [float.__round__()]: it rounds the exact binary value
    half to even, and refuses infinities ([OverflowError]) and NaNs
    ([ValueError]). *)
Definition float_round_half_even (f : float) : float_round_error + Z :=
  match Prim2SF f with
  | S754_nan => inl FloatNaN
  | S754_infinity _ => inl FloatOverflow
  | S754_zero _ => inr 0
  | S754_finite s m e =>
      let mag := if 0 <=? e then Z.pos m * 2 ^ e
                 else round_half_even (Z.pos m) (2 ^ (- e)) in
      inr (if s then - mag else mag)
  end.

(** The float nearest to the quotient of two positive integers. *)
Definition float_of_ratio (num den : positive) : float :=
  SF2Prim (SFdiv prec emax (S754_finite false num 0) (S754_finite false den 0)).

(** The interpreter's [float.__round__(ndigits)]: it rounds the exact binary
    value half to even to a multiple of [10 ** -ndigits] and returns the
    float nearest to that decimal, or raises [OverflowError] when that float
    is an infinity; zeros, infinities and NaNs round to themselves. *)
Definition float_round_decimal (f : float) (ndigits : Z)
  : float_round_error + float :=
  match Prim2SF f with
  | S754_finite s m e =>
      let num := Z.pos m * (if 0 <=? e then 2 ^ e else 1)
                 * (if 0 <=? ndigits then 10 ^ ndigits else 1) in
      let den := (if 0 <=? e then 1 else 2 ^ (- e))
                 * (if 0 <=? ndigits then 1 else 10 ^ (- ndigits)) in
      let k := round_half_even num den in
      let scaled := if 0 <=? ndigits then k else k * 10 ^ (- ndigits) in
      let unit := if 0 <=? ndigits then 10 ^ ndigits else 1 in
      let r := match scaled, unit with
               | Z.pos p, Z.pos q => float_of_ratio p q
               | _, _ => 0%float
               end in
      if PrimFloat.is_infinity r then inl FloatOverflow
      else inr (if s then PrimFloat.opp r else r)
  | _ => inr f
  end.

(** [z] is the integer nearest to [num / den], the even one of the two on a
    tie. *)
Definition is_nearest_even (num den z : Z) : Prop :=
  2 * Z.abs (z * den - num) <= den
  ∧ (2 * Z.abs (z * den - num) = den → Z.even z = true).

(** The exact value of a finite float, as a fraction: sign, mantissa and
    exponent give [± m * 2 ** e]. *)
Definition float_numerator (s : bool) (m : positive) (e : Z) : Z :=
  (if s then - Z.pos m else Z.pos m) * (if 0 <=? e then 2 ^ e else 1).

Definition float_denominator (e : Z) : Z :=
  if 0 <=? e then 1 else 2 ^ (- e).

(** The values whose product with 1000 is a number that can be rounded: a
    bool, an int, and a float whose product with 1000 is finite. *)
Definition finite_product (v : value) : bool :=
  match v with
  | VBool _ | VInt _ => true
  | VFloat f =>
      match Prim2SF (PrimFloat.mul f 1000%float) with
      | S754_zero _ | S754_finite _ _ _ => true
      | _ => false
      end
  | _ => false
  end.

(** "[z] is the value multiplied by 1000 and rounded to the nearest
    integer": for a bool and an int the product itself, for a float the
    integer nearest to the exact value of the float product. *)
Definition rounded_product (v : value) (z : Z) : Prop :=
  match v with
  | VBool b => z = if b then 1000 else 0
  | VInt n => z = n * 1000
  | VFloat f =>
      match Prim2SF (PrimFloat.mul f 1000%float) with
      | S754_zero _ => z = 0
      | S754_finite s m e =>
          is_nearest_even (float_numerator s m e) (float_denominator e) z
      | _ => False
      end
  | _ => False
  end.

(** A host whose local time zone has a fixed offset from UTC, in minutes: a
    naive datetime gets the local zone attached, an aware one is converted. *)
Definition as_local_fixed (offset : Z) (t : datetime) : datetime :=
  match dt_utcoffset t with
  | None => Datetime (dt_wall t) (Some offset)
  | Some o => Datetime (dt_wall t + (offset - o) * 60000000) (Some offset)
  end.

(** ** Sample data *)

Definition empty_data : ProductData :=
  {| product := "EH000001"; config := None; state := None; circuit := None;
     site := None; cost_day := None; cost_month := None; cost_year := None;
     schedule := None; weekly_schedule := None |}.

Definition sample_data : ProductData :=
  {| product := "EH000001";
     config := Some {[ "isEnabled" := VBool true ]};
     state := Some (<[ "latestPulse" := VDatetime (Datetime 1700000000000000 None) ]>
                      {[ "totalPower" := VInt 7 ]});
     circuit := Some ∅;
     site := Some ∅;
     cost_day := Some {[ "totalCost" := VInt 12 ]};
     cost_month := Some ∅;
     cost_year := Some ∅;
     schedule := None;
     weekly_schedule := None |}.

Definition heap_of (d : ProductData) : Heap :=
  {| data := d; _state := VNone; records := [] |}.

(** ** Further vocabulary *)

(** ["".join] with a dot between the parts. *)
Fixpoint join_dot (parts : list string) : string :=
  match parts with
  | [] => EmptyString
  | [p] => p
  | p :: ps => p ++ "." ++ join_dot ps
  end.

(** A statement that leaves the data object as it found it. *)
Definition preserves_data {A} (m : M A) : Prop :=
  ∀ h, data (snd (m h)) = data h.

(** The state after a lookup: the empty string counts as [None]. *)
Definition none_if_empty (v : value) : value :=
  if is_empty_str v then VNone else v.

(** Further sample entities. *)
Definition pulse_sensor : ChargerEntity :=
  {| _entity_name := "pulse"; _state_key := "state.totalPower";
     _units := None; _convert_units_func := None;
     _state_func := Some (read_key "latestPulse") |}.

Definition watt_sensor : ChargerEntity :=
  {| _entity_name := "power"; _state_key := "state.totalPower";
     _units := Some "W";
     _convert_units_func :=
       Some (round_2_dec float_round_half_even float_round_decimal);
     _state_func := None |}.

Definition bare_key_sensor : ChargerEntity :=
  {| _entity_name := "power"; _state_key := "totalPower"; _units := None;
     _convert_units_func := None; _state_func := None |}.

(** ** Device conditions: the checker *)

(** [ATTR_ENTITY_ID] of the host. *)
Definition ATTR_ENTITY_ID : string := "entity_id".

(** [config[key]] on a condition configuration. *)
Definition config_item (config : gmap string string) (key : string)
  : result string :=
  match config !! key with
  | Some v => inr v
  | None => inl (KeyError key)
  end.

Section ConditionChecker.

(** The host object, the template variables handed to a checker, and the
    host's [condition.state(hass, entity, req_state)]. *)
Variable HomeAssistant : Type.
Variable TemplateVars : Type.
Variable condition_state : HomeAssistant -> string -> string -> result bool.

(** The closure [test_is_state] over [config] and [state]. *)
Definition test_is_state (config : gmap string string) (state : string)
    (hass : HomeAssistant) (variables : TemplateVars) : result bool :=
  match config_item config ATTR_ENTITY_ID with
  | inr entity => condition_state hass entity state
  | inl e => inl e
  end.

Definition async_condition_from_config (config : gmap string string)
  : result (HomeAssistant -> TemplateVars -> result bool) :=
  match config_item config CONF_TYPE with
  | inr state => inr (test_is_state config state)
  | inl e => inl e
  end.

End ConditionChecker.

(** A sample registry: the entries of each device. *)
Definition sample_entries (registry : unit) (device_id : string)
  : list RegistryEntry :=
  if String.eqb device_id "dev1" then
    [ {| entity_id := "sensor.eh_status"; translation_key := Some "easee_status" |};
      {| entity_id := "sensor.eh_power"; translation_key := Some "power" |} ]
  else [].

Definition sample_status : list (Z * string) :=
  [ (1, "disconnected"); (2, "awaiting_start"); (3, "charging") ].

(** ** Status mapping *)

(** The integer a float is equal to, if any. *)
Definition float_integer (f : float) : option Z :=
  match Prim2SF f with
  | S754_zero _ => Some 0
  | S754_finite s m e =>
      let mag :=
        if 0 <=? e then Some (Z.pos m * 2 ^ e)
        else if Z.pos m mod 2 ^ (- e) =? 0 then Some (Z.pos m / 2 ^ (- e))
        else None in
      (fun z => if s then - z else z) <$> mag
  | _ => None
  end.

(** The integer a value is equal to, as a dictionary with integer keys sees
    it: [True == 1], [3.0 == 3]. *)
Definition int_key (v : value) : option Z :=
  match v with
  | VBool b => Some (int_of_bool b)
  | VInt n => Some n
  | VFloat f => float_integer f
  | _ => None
  end.

(** [table.get(value, default)] on a table with integer keys. *)
Definition table_get (table : list (Z * string)) (v : value)
    (default : string) : string :=
  match int_key v with
  | Some k =>
      match List.find (fun item => fst item =? k) table with
      | Some item => snd item
      | None => default
      end
  | None => default
  end.

Section StatusMapping.

Variable EASEE_STATUS : list (Z * string).

(** The interpreter's formatting of a value inside an f-string. *)
Variable format_value : value -> string.

Definition map_charger_status (v : value) (unit : option string) : string :=
  table_get EASEE_STATUS v ("unknown " ++ format_value v).

End StatusMapping.

(** ** ChargerEntity: state attributes *)

(** [s.replace(".", "_")] *)
Fixpoint replace_dot (s : string) : string :=
  match s with
  | EmptyString => EmptyString
  | String c s' =>
      String (if Ascii.eqb c "."%char then "_"%char else c) (replace_dot s')
  end.

(** [str.lower] on the code points below 256: the letters [A] to [Z] and the
    capital letters of Latin-1 (U+00C0 to U+00DE but the multiplication sign)
    move up by 32. *)
Definition char_lower (c : ascii) : ascii :=
  let n := N_of_ascii c in
  if ((65 <=? n) && (n <=? 90)
      || (192 <=? n) && (n <=? 222) && negb (n =? 215))%N
  then ascii_of_N (n + 32) else c.

Fixpoint lower (s : string) : string :=
  match s with
  | EmptyString => EmptyString
  | String c s' => String (char_lower c) (lower s')
  end.

(** [sub in s] on strings *)
Fixpoint contains (sub s : string) : bool :=
  String.prefix sub s
  || match s with
     | EmptyString => false
     | String _ s' => contains sub s'
     end.

Section Attributes.

Variable as_local : datetime -> datetime.
Variable float_round : float -> float_round_error + Z.
Variable float_round_ndigits : float -> Z -> float_round_error + float.

(** One turn of the loop over the attribute keys: [attrs[key] = ...]. *)
Definition set_attr (self : ChargerEntity) (attrs : dict) (attr_key : string)
  : M dict :=
  let key := replace_dot attr_key in
  if contains "voltage" (lower key) then
    v <- get_value_from_key as_local attr_key ;;
    r <- lift (round_0_dec float_round float_round_ndigits v None) ;;
    ret (<[key := r]> attrs)
  else if contains "current" (lower key) then
    v <- get_value_from_key as_local attr_key ;;
    r <- lift (round_1_dec float_round float_round_ndigits v None) ;;
    ret (<[key := r]> attrs)
  else if contains "cumulative" (lower key) || contains "power" (lower key) then
    v <- get_value_from_key as_local attr_key ;;
    r <- lift (round_1_dec float_round float_round_ndigits v (_units self)) ;;
    ret (<[key := r]> attrs)
  else
    v <- get_value_from_key as_local attr_key ;;
    ret (<[key := v]> attrs).

Fixpoint set_attrs (self : ChargerEntity) (attrs_keys : list string)
    (attrs : dict) : M dict :=
  match attrs_keys with
  | [] => ret attrs
  | attr_key :: rest =>
      attrs' <- set_attr self attrs attr_key ;;
      set_attrs self rest attrs'
  end.

(** The property [extra_state_attributes] of an entity with the attribute
    keys [_attrs_keys] on a product named [name]. *)
Definition extra_state_attributes (self : ChargerEntity)
    (_attrs_keys : list string) (name : string) : M dict :=
  try_except
    (d <- get_data ;;
     set_attrs self _attrs_keys
       (<["id" := VStr (product d)]> (<["name" := VStr name]> ∅)))
    (fun e => match e with
              | TypeError | IndexError _ => ret ∅
              | _ => raise e
              end).

End Attributes.

(** Number of underscores of a string. *)
Fixpoint count_underscores (s : string) : nat :=
  match s with
  | EmptyString => O
  | String c s' => (if Ascii.eqb c "_"%char then 1 else 0)%nat + count_underscores s'
  end.

(** ** ChargerEntity: construction *)

(** [self._attr_unique_id = f"{self.data.product.id}_{self._entity_name}"] *)
Definition unique_id (product_id name : string) : string :=
  product_id ++ "_" ++ name.

(** The keys [__init__] passes to [data.register_for_update], in the order
    of the calls: the state key unless it is among the attribute keys, then
    every attribute key. *)
Definition registered_keys (state_key : string) (attrs_keys : list string)
  : list string :=
  ((if bool_decide (state_key ∈ attrs_keys) then [] else [state_key])
   ++ attrs_keys)%list.

(** ** ChargerEntity: removal *)

(** [l.remove(x)] on a list that holds [x]: the first occurrence goes. *)
Fixpoint remove_first (x : nat) (l : list nat) : list nat :=
  match l with
  | [] => []
  | y :: l' => if Nat.eqb x y then l' else y :: remove_first x l'
  end.

(** [if self in l: l.remove(self)] *)
Definition discard (self : nat) (l : list nat) : list nat :=
  if bool_decide (self ∈ l) then remove_first self l else l.

(** The entity lists of the controller; an entity is known by its identity. *)
Record Controller := {
  sensor_entities : list nat;
  binary_sensor_entities : list nat;
  switch_entities : list nat;
  button_entities : list nat;
  light_entities : list nat;
  equalizer_sensor_entities : list nat;
  equalizer_binary_sensor_entities : list nat;
  equalizer_switch_entities : list nat;
}.

(** The calls made on the host's registries. *)
Inductive RegistryCall :=
  | RemoveDevice (device : string)
  | RemoveEntity (entity : string).

(** What a run of [async_will_remove_from_hass] leaves behind. *)
Record Removal := {
  raised : result unit;
  controller_after : Controller;
  registry_calls : list RegistryCall;
  removal_records : list LogRecord;
}.

Section Removal.

(** The host's registries as [async_will_remove_from_hass] reads them:
    [ent_reg.async_get(entity_id)], giving the entry's [device_id] (which may
    be [None]) when the entity is registered; [dev_reg.async_get(device_id)],
    giving the device entry's [id] when the device is registered; and the
    length of [async_entries_for_device(ent_reg, device_id)]. *)
Variable entity_device : string -> option (option string).
Variable device_entry_id : option string -> option string.
Variable entries_for_device : option string -> nat.

(** The entity being removed: its identity, its [entity_id], its
    [_entity_name] and the name of the site of its data object; and
    [hass.data[DOMAIN]["sites_to_remove"]]. *)
Definition async_will_remove_from_hass (self : nat)
    (self_entity_id entity_name site_name : string)
    (sites_to_remove : list string) (controller : Controller) : Removal :=
  let controller' :=
    {| sensor_entities := discard self (sensor_entities controller);
       binary_sensor_entities :=
         discard self (binary_sensor_entities controller);
       switch_entities := discard self (switch_entities controller);
       button_entities := discard self (button_entities controller);
       light_entities := discard self (light_entities controller);
       equalizer_sensor_entities :=
         discard self (equalizer_sensor_entities controller);
       equalizer_binary_sensor_entities :=
         discard self (equalizer_binary_sensor_entities controller);
       equalizer_switch_entities :=
         discard self (equalizer_switch_entities controller) |} in
  match entity_device self_entity_id with
  | None =>
      {| raised := inl AttributeError; controller_after := controller';
         registry_calls := []; removal_records := [] |}
  | Some device_id =>
      let device_entry := device_entry_id device_id in
      let records :=
        [Log DEBUG ("Removing _entity_name: " ++ entity_name)] in
      if bool_decide (site_name ∈ sites_to_remove) then
        if Nat.eqb (entries_for_device device_id) 1 then
          match device_entry with
          | None =>
              {| raised := inl AttributeError; controller_after := controller';
                 registry_calls := []; removal_records := records |}
          | Some id =>
              {| raised := inr tt; controller_after := controller';
                 registry_calls := [RemoveDevice id];
                 removal_records := records |}
          end
        else
          {| raised := inr tt; controller_after := controller';
             registry_calls := [RemoveEntity self_entity_id];
             removal_records := records |}
      else
        {| raised := inr tt; controller_after := controller';
           registry_calls := []; removal_records := records |}
  end.

End Removal.

(** The eight entity lists of a controller. *)
Definition entity_lists (controller : Controller) : list (list nat) :=
  [ sensor_entities controller; binary_sensor_entities controller;
    switch_entities controller; button_entities controller;
    light_entities controller; equalizer_sensor_entities controller;
    equalizer_binary_sensor_entities controller;
    equalizer_switch_entities controller ].

Definition sample_controller : Controller :=
  {| sensor_entities := [1; 2; 3]%nat; binary_sensor_entities := [4%nat];
     switch_entities := []; button_entities := []; light_entities := [];
     equalizer_sensor_entities := []; equalizer_binary_sensor_entities := [];
     equalizer_switch_entities := [] |}.

(** A status sensor over the sample status table, and data holding a
    status code. *)
Definition status_sensor : ChargerEntity :=
  {| _entity_name := "status"; _state_key := "state.chargerOpMode";
     _units := None;
     _convert_units_func :=
       Some (fun s unit =>
               inr (VStr (map_charger_status sample_status (fun _ => "?") s unit)));
     _state_func := None |}.

Definition status_data : ProductData :=
  {| product := "EH000001"; config := None;
     state := Some {[ "chargerOpMode" := VInt 3 ]};
     circuit := None; site := None; cost_day := None; cost_month := None;
     cost_year := None; schedule := None; weekly_schedule := None |}.

(** ** get_value_from_key with a host conversion that may raise *)

Section KeyPathHost.

(** [dt_util.as_local] as a call that may raise, as the conversion of a
    datetime at the end of the representable range does. *)
Variable as_local : datetime -> result datetime.

(** [get_value_from_key], the conversion to local time inside the [try]
    statement as in the source, so that what it raises meets the handler. *)
Definition get_value_from_key_host (key : string) : M value :=
  try_except
    (parts <- unpack2 (split_dot key) ;;
     let '(first, second) := parts in
     d <- get_data ;;
     v <- (if String.eqb first "config" then getitem (config d) second
           else if String.eqb first "state" then getitem (state d) second
           else if String.eqb first "circuit" then getitem (circuit d) second
           else if String.eqb first "site" then getitem (site d) second
           else if String.eqb first "cost_day" then getitem (cost_day d) second
           else if String.eqb first "cost_month" then getitem (cost_month d) second
           else if String.eqb first "cost_year" then getitem (cost_year d) second
           else if String.eqb first "schedule" then
             match schedule d with
             | Some _ => getitem (schedule d) second
             | None => ret VNone
             end
           else if String.eqb first "weekly_schedule" then
             match weekly_schedule d with
             | Some _ => getitem (weekly_schedule d) second
             | None => ret VNone
             end
           else
             logger ERROR ("Unknown first part of key: " ++ key) ;;
             raise (IndexError "Unknown first part of key")) ;;
     match v with
     | VDatetime t => t' <- lift (as_local t) ;; ret (VDatetime t')
     | _ => ret v
     end)
    (fun e => match e with
              | KeyError _ => ret (VStr "")
              | _ => raise e
              end).

End KeyPathHost.



(** ** Proof automation *)

(** Membership of a literal in a list of literals, and its refutation from
    disequalities in the context. *)
Ltac elem_of_names :=
  repeat first [apply list_elem_of_here | apply list_elem_of_further].

Ltac not_elem_of_names H :=
  repeat (apply elem_of_cons in H as [H|H]; [congruence|]);
  by apply elem_of_nil in H.

(** Case analysis on the next comparison of a prefix with a bucket name. *)
Ltac case_prefix :=
  match goal with
  | |- context [String.eqb ?a ?b] =>
      destruct (String.eqb_spec a b) as [->|?]
  end.

(** * Properties *)

(** ** Sample runs *)

Example split_dot_two_parts :
  split_dot "state.totalPower" = ["state"; "totalPower"].
Proof. reflexivity. Qed.

Example split_dot_empty_parts : split_dot "a..b." = ["a"; ""; "b"; ""].
Proof. reflexivity. Qed.

Example split_dot_no_dot : split_dot "state" = ["state"].
Proof. reflexivity. Qed.

Example get_stored_value :
  fst (get_value_from_key (as_local_fixed 60) "state.totalPower"
         (heap_of sample_data)) = inr (VInt 7).
Proof. reflexivity. Qed.

Example get_from_none_bucket :
  fst (get_value_from_key (as_local_fixed 60) "state.totalPower"
         (heap_of empty_data)) = inl TypeError.
Proof. reflexivity. Qed.

Example set_then_get :
  fst (get_value_from_key (as_local_fixed 60) "site.name"
         (snd (set_value_from_key "site.name" (VStr "Home")
                 (heap_of sample_data)))) = inr (VStr "Home").
Proof. reflexivity. Qed.

Example set_in_none_circuit :
  fst (set_value_from_key "circuit.ratedCurrent" (VInt 16) (heap_of empty_data))
  = inl TypeError.
Proof. reflexivity. Qed.

Example update_with_wrong_prefix :
  fst (async_update (as_local_fixed 60)
         {| _entity_name := "x"; _state_key := "session.energy";
            _units := None; _convert_units_func := None; _state_func := None |}
         (heap_of sample_data))
  = inl (IndexError "Wrong key for entity: session.energy").
Proof. reflexivity. Qed.

Example update_rounds_power :
  _state (snd (async_update (as_local_fixed 60)
                 {| _entity_name := "power"; _state_key := "state.totalPower";
                    _units := Some "W";
                    _convert_units_func :=
                      Some (round_1_dec float_round_half_even float_round_decimal);
                    _state_func := None |}
                 (heap_of sample_data)))
  = VInt 7000.
Proof. reflexivity. Qed.

Example conditions_of_device :
  async_get_conditions "easee" [(1, "disconnected"); (3, "charging")] unit
    (fun _ _ => [ {| entity_id := "sensor.eh_status";
                     translation_key := Some "easee_status" |};
                  {| entity_id := "sensor.eh_power";
                     translation_key := Some "power" |} ])
    tt "dev1"
  = [ condition_for "easee" "dev1"
        {| entity_id := "sensor.eh_status";
           translation_key := Some "easee_status" |} "disconnected";
      condition_for "easee" "dev1"
        {| entity_id := "sensor.eh_status";
           translation_key := Some "easee_status" |} "charging" ].
Proof. reflexivity. Qed.

(** ** Splitting keys *)

Lemma split_dot_length (s : string) :
  length (split_dot s) = S (count_dots s).
Proof.
  induction s as [|c s IH]; [reflexivity|].
  cbn [split_dot count_dots].
  destruct (Ascii.eqb c ".").
  - cbn. by rewrite IH.
  - destruct (split_dot s) as [|p ps]; [discriminate IH|].
    cbn in *. exact IH.
Qed.

Lemma split_dot_two (s : string) :
  count_dots s = 1%nat ↔ ∃ first second, split_dot s = [first; second].
Proof.
  pose proof (split_dot_length s) as Hlen. split.
  - intros Hc. rewrite Hc in Hlen.
    destruct (split_dot s) as [|a [|b [|c l]]]; try discriminate Hlen.
    by exists a, b.
  - intros (a & b & Hs). rewrite Hs in Hlen. cbn in Hlen. lia.
Qed.

Lemma unpack2_two (first second : string) (h : Heap) :
  unpack2 [first; second] h = (inr (first, second), h).
Proof. reflexivity. Qed.

Lemma unpack2_other (parts : list string) (h : Heap) :
  length parts ≠ 2%nat → unpack2 parts h = (inl ValueError, h).
Proof.
  intros Hlen. destruct parts as [|a [|b [|c l]]]; try reflexivity.
  by destruct Hlen.
Qed.

(** ** Prefixes and buckets *)

Lemma bucket_named_unknown (first : string) (d : ProductData) :
  first ∉ recognized_prefixes ↔ bucket_named first d = None.
Proof.
  unfold bucket_named, buckets, recognized_prefixes. cbn.
  repeat (case_prefix;
          [cbn; split; [intros H; exfalso; apply H; elem_of_names | discriminate]|]).
  cbn. split; [done|]. intros _ Hin. not_elem_of_names Hin.
Qed.

Lemma settable_recognized (first : string) :
  first ∈ settable_prefixes → first ∈ recognized_prefixes.
Proof.
  unfold settable_prefixes. intros Hin.
  repeat (apply elem_of_cons in Hin as [->|Hin]; [elem_of_names|]).
  by apply elem_of_nil in Hin.
Qed.

Lemma named_in_elem_of (names : list string) (first : string) :
  named_in names first = true ↔ first ∈ names.
Proof.
  unfold named_in. rewrite existsb_exists. split.
  - intros (x & Hin & Heq). apply String.eqb_eq in Heq as ->.
    by apply list_elem_of_In.
  - intros Hin. exists first. split; [by apply list_elem_of_In|].
    apply String.eqb_refl.
Qed.

(** ** Outcomes of the two dispatch functions on a two-part key *)

Section Dispatch.

Variable as_local : datetime -> datetime.

Lemma get_value_from_key_outcome (key first second : string) (h : Heap) :
  split_dot key = [first; second] →
  get_value_from_key as_local key h =
    match bucket_named first (data h) with
    | None =>
        (inl (IndexError "Unknown first part of key"),
         with_record (unknown_prefix_record key) h)
    | Some None =>
        if named_in guarded_on_get first then (inr VNone, h)
        else (inl TypeError, h)
    | Some (Some b) =>
        match b !! second with
        | Some v => (inr (localize as_local v), h)
        | None => (inr (VStr ""), h)
        end
    end.
Proof.
  intros Hsplit.
  unfold get_value_from_key, try_except, bind. rewrite Hsplit.
  unfold bucket_named, buckets, named_in, guarded_on_get. cbn.
  repeat (case_prefix; cbn;
          [match goal with
           | |- context [getitem (?f (data h)) second] =>
               destruct (f (data h)) as [b|]; cbn;
               [destruct (b !! second); reflexivity | reflexivity]
           end|]).
  reflexivity.
Qed.

Lemma set_value_from_key_outcome (key first second : string) (v : value)
    (h : Heap) :
  split_dot key = [first; second] →
  set_value_from_key key v h =
    if named_in settable_prefixes first then
      match bucket_named first (data h) with
      | Some (Some b) =>
          (inr v,
           with_data (store_bucket first (Some (<[second := v]> b)) (data h)) h)
      | _ =>
          if named_in guarded_on_set first then (inr v, h)
          else (inl TypeError, h)
      end
    else
      (inl (IndexError "Unknown first part of key"),
       with_record (unknown_prefix_record key) h).
Proof.
  intros Hsplit.
  unfold set_value_from_key, bind. rewrite Hsplit.
  unfold bucket_named, buckets, named_in, settable_prefixes, guarded_on_set.
  cbn.
  repeat (case_prefix; cbn;
          [match goal with
           | |- context [setitem (?f (data h)) second] =>
               destruct (f (data h)) as [b|] eqn:Hb; cbn; rewrite ?Hb; reflexivity
           end|]).
  reflexivity.
Qed.

End Dispatch.

Lemma bucket_named_store_bucket (first : string) (b : option dict)
    (d : ProductData) :
  first ∈ recognized_prefixes → bucket_named first (store_bucket first b d) = Some b.
Proof.
  unfold recognized_prefixes. intros Hin.
  repeat (apply elem_of_cons in Hin as [->|Hin]; [reflexivity|]).
  by apply elem_of_nil in Hin.
Qed.

Lemma bucket_named_store_bucket_ne (first first' : string) (b : option dict)
    (d : ProductData) :
  first' ≠ first → bucket_named first' (store_bucket first b d) = bucket_named first' d.
Proof.
  intros Hne. unfold bucket_named, buckets, store_bucket. cbn.
  repeat match goal with
         | |- context [String.eqb first' ?s] =>
             destruct (String.eqb_spec first' s) as [->|?];
             [destruct (String.eqb_spec first s) as [->|?]; [done|reflexivity]|]
         end.
  reflexivity.
Qed.

(** ** get_value_from_key *)




(** C5: on a key [first.second] whose prefix names a bucket that is not
    [None] but does not hold [second], [get_value_from_key] raises nothing and
    returns the empty string, leaving state and log untouched. *)
Theorem get_value_from_key_missing (as_local : datetime -> datetime)
    (key first second : string) (b : dict) (h : Heap) :
  split_dot key = [first; second] →
  first ∈ recognized_prefixes →
  bucket_named first (data h) = Some (Some b) →
  b !! second = None →
  get_value_from_key as_local key h = (inr (VStr ""), h).
Proof.
  intros Hsplit _ Hb Hv.
  by rewrite (get_value_from_key_outcome _ _ _ _ _ Hsplit), Hb, Hv.
Qed.

Lemma get_value_from_key_missing_witness :
  split_dot "config.maxCurrent" = ["config"; "maxCurrent"]
  ∧ "config" ∈ recognized_prefixes
  ∧ get_value_from_key (as_local_fixed 60) "config.maxCurrent"
      (heap_of sample_data) = (inr (VStr ""), heap_of sample_data).
Proof.
  split; [reflexivity|]. split; [elem_of_names|].
  apply (get_value_from_key_missing (as_local_fixed 60) "config.maxCurrent"
           "config" "maxCurrent" {[ "isEnabled" := VBool true ]}
           (heap_of sample_data));
    [reflexivity | elem_of_names | reflexivity | reflexivity].
Defined.

(** C10: on a key [schedule.second] or [weekly_schedule.second] whose bucket
    is [None], [get_value_from_key] returns [None]: neither the empty string
    nor an exception. *)
Theorem get_value_from_key_schedule_none (as_local : datetime -> datetime)
    (key first second : string) (h : Heap) :
  split_dot key = [first; second] →
  first = "schedule" ∨ first = "weekly_schedule" →
  bucket_named first (data h) = Some None →
  get_value_from_key as_local key h = (inr VNone, h)
  ∧ fst (get_value_from_key as_local key h) ≠ inr (VStr "")
  ∧ ∀ e, fst (get_value_from_key as_local key h) ≠ inl e.
Proof.
  intros Hsplit Hfirst Hb.
  rewrite (get_value_from_key_outcome _ _ _ _ _ Hsplit), Hb.
  destruct Hfirst as [-> | ->]; cbn; by repeat split.
Qed.

Lemma get_value_from_key_schedule_none_witness :
  split_dot "weekly_schedule.isEnabled" = ["weekly_schedule"; "isEnabled"]
  ∧ bucket_named "weekly_schedule" sample_data = Some None
  ∧ get_value_from_key (as_local_fixed 60) "weekly_schedule.isEnabled"
      (heap_of sample_data) = (inr VNone, heap_of sample_data).
Proof.
  split; [reflexivity|]. split; [reflexivity|].
  refine (proj1 (get_value_from_key_schedule_none (as_local_fixed 60)
                   "weekly_schedule.isEnabled" "weekly_schedule" "isEnabled"
                   (heap_of sample_data) _ _ _));
    [reflexivity | right; reflexivity | reflexivity].
Defined.

(** ** Unknown prefixes and malformed keys *)

(** C2: on a key [first.second] whose prefix is not recognized, both
    [get_value_from_key] and [set_value_from_key] log the key at error level
    and raise [IndexError]; the handler of [get_value_from_key] lets it
    through, and nothing but the log changes. *)
Theorem unknown_prefix_raises (as_local : datetime -> datetime)
    (key first second : string) (v : value) (h : Heap) :
  split_dot key = [first; second] →
  first ∉ recognized_prefixes →
  get_value_from_key as_local key h =
    (inl (IndexError "Unknown first part of key"),
     with_record (unknown_prefix_record key) h)
  ∧ set_value_from_key key v h =
    (inl (IndexError "Unknown first part of key"),
     with_record (unknown_prefix_record key) h).
Proof.
  intros Hsplit Hnot. split.
  - rewrite (get_value_from_key_outcome _ _ _ _ _ Hsplit).
    by apply (bucket_named_unknown first (data h)) in Hnot as ->.
  - rewrite (set_value_from_key_outcome _ _ _ _ _ Hsplit).
    destruct (named_in settable_prefixes first) eqn:Hin; [|reflexivity].
    apply named_in_elem_of, settable_recognized in Hin. by destruct Hnot.
Qed.

Lemma unknown_prefix_raises_witness :
  split_dot "session.energy" = ["session"; "energy"]
  ∧ ("session" ∉ recognized_prefixes)
  ∧ records (snd (get_value_from_key (as_local_fixed 60) "session.energy"
                    (heap_of sample_data)))
    = [Log ERROR "Unknown first part of key: session.energy"]
  ∧ fst (set_value_from_key "session.energy" (VInt 1) (heap_of sample_data))
    = inl (IndexError "Unknown first part of key").
Proof.
  assert (Hnot : "session" ∉ recognized_prefixes).
  { intros Hin. unfold recognized_prefixes in Hin.
    repeat (apply elem_of_cons in Hin as [Hin|Hin]; [discriminate Hin|]).
    by apply elem_of_nil in Hin. }
  split; [reflexivity|]. split; [exact Hnot|].
  destruct (unknown_prefix_raises (as_local_fixed 60) "session.energy"
              "session" "energy" (VInt 1) (heap_of sample_data) eq_refl Hnot)
    as [Hget Hset].
  rewrite Hget, Hset. split; reflexivity.
Defined.

(** C7: a key that does not split at its dots into exactly two parts makes
    both dispatch functions fail with the unpacking error ([ValueError]),
    changing nothing; a key with exactly one dot splits into two parts, and
    neither function can then fail with that error. *)
Theorem key_shape_enforced (as_local : datetime -> datetime) (key : string)
    (v : value) (h : Heap) :
  (length (split_dot key) ≠ 2%nat →
     get_value_from_key as_local key h = (inl ValueError, h)
     ∧ set_value_from_key key v h = (inl ValueError, h))
  ∧ (count_dots key = 1%nat →
     length (split_dot key) = 2%nat
     ∧ fst (get_value_from_key as_local key h) ≠ inl ValueError
     ∧ fst (set_value_from_key key v h) ≠ inl ValueError).
Proof.
  split.
  - intros Hlen.
    unfold get_value_from_key, set_value_from_key, try_except, bind.
    by rewrite (unpack2_other _ h Hlen).
  - intros Hdots. split; [by rewrite split_dot_length, Hdots|].
    apply split_dot_two in Hdots as (first & second & Hsplit). split.
    + rewrite (get_value_from_key_outcome _ _ _ _ _ Hsplit).
      destruct (bucket_named first (data h)) as [[b|]|]; [| |discriminate].
      * by destruct (b !! second).
      * by destruct (named_in guarded_on_get first).
    + rewrite (set_value_from_key_outcome _ _ _ _ _ Hsplit).
      destruct (named_in settable_prefixes first); [|discriminate].
      destruct (bucket_named first (data h)) as [[b|]|]; [discriminate| |];
        by destruct (named_in guarded_on_set first).
Qed.

Lemma key_shape_enforced_witness :
  (length (split_dot "state.latest.pulse") ≠ 2%nat
   ∧ get_value_from_key (as_local_fixed 60) "state.latest.pulse"
       (heap_of sample_data) = (inl ValueError, heap_of sample_data)
   ∧ set_value_from_key "state.latest.pulse" (VInt 1) (heap_of sample_data)
     = (inl ValueError, heap_of sample_data))
  ∧ (count_dots "state.totalPower" = 1%nat
     ∧ fst (get_value_from_key (as_local_fixed 60) "state.totalPower"
              (heap_of sample_data)) ≠ inl ValueError).
Proof.
  assert (Hlen : length (split_dot "state.latest.pulse") ≠ 2%nat)
    by (cbn; discriminate).
  split.
  - split; [exact Hlen|].
    exact (proj1 (key_shape_enforced (as_local_fixed 60) "state.latest.pulse"
                    (VInt 1) (heap_of sample_data)) Hlen).
  - split; [reflexivity|].
    exact (proj1 (proj2 (proj2 (key_shape_enforced (as_local_fixed 60)
                                  "state.totalPower" (VInt 1)
                                  (heap_of sample_data)) eq_refl))).
Defined.

(** ** set_value_from_key *)

(** C9: on a key [first.second] with [first] among [config], [state],
    [schedule] and [weekly_schedule] whose bucket is [None],
    [set_value_from_key] raises nothing, leaves the whole state unchanged and
    returns its value argument; and whenever [set_value_from_key] returns, on
    any key, it returns its value argument. *)
Theorem set_value_from_key_none_bucket (key first second : string) (v : value)
    (h : Heap) :
  (split_dot key = [first; second] →
   first ∈ guarded_on_set →
   bucket_named first (data h) = Some None →
   set_value_from_key key v h = (inr v, h))
  ∧ (∀ r h', set_value_from_key key v h = (inr r, h') → r = v).
Proof.
  split.
  - intros Hsplit Hin Hb.
    rewrite (set_value_from_key_outcome _ _ _ _ _ Hsplit), Hb.
    apply named_in_elem_of in Hin as Hguard. rewrite Hguard.
    unfold guarded_on_set in Hin.
    repeat (apply elem_of_cons in Hin as [->|Hin]; [reflexivity|]).
    by apply elem_of_nil in Hin.
  - intros r h'.
    destruct (decide (length (split_dot key) = 2%nat)) as [Hlen|Hlen].
    + destruct (split_dot key) as [|a [|c [|x l]]] eqn:Hsplit;
        try discriminate Hlen.
      rewrite (set_value_from_key_outcome _ _ _ _ _ Hsplit).
      destruct (named_in settable_prefixes a); [|discriminate].
      destruct (bucket_named a (data h)) as [[b|]|];
        [congruence| |]; destruct (named_in guarded_on_set a); congruence.
    + unfold set_value_from_key, bind.
      rewrite (unpack2_other _ h Hlen). discriminate.
Qed.

Lemma set_value_from_key_none_bucket_witness :
  split_dot "schedule.chargeStartTime" = ["schedule"; "chargeStartTime"]
  ∧ "schedule" ∈ guarded_on_set
  ∧ bucket_named "schedule" sample_data = Some None
  ∧ set_value_from_key "schedule.chargeStartTime" (VStr "23:00")
      (heap_of sample_data) = (inr (VStr "23:00"), heap_of sample_data).
Proof.
  split; [reflexivity|]. split; [elem_of_names|]. split; [reflexivity|].
  refine (proj1 (set_value_from_key_none_bucket "schedule.chargeStartTime"
                   "schedule" "chargeStartTime" (VStr "23:00")
                   (heap_of sample_data)) _ _ _);
    [reflexivity | elem_of_names | reflexivity].
Defined.

(** C3 (as amended): [set_value_from_key] dispatches over six of the nine
    prefixes. For [first] among [config], [state], [circuit], [site],
    [schedule] and [weekly_schedule] whose bucket exists, it stores the value
    under [second] in that bucket, changes nothing else and returns the
    value; for [first] among [cost_day], [cost_month] and [cost_year] it
    treats the prefix as unknown: it logs the key, raises [IndexError] and
    stores nothing. *)
Theorem set_value_from_key_dispatch (key first second : string) (v : value)
    (h : Heap) :
  split_dot key = [first; second] →
  (∀ b, first ∈ settable_prefixes →
        bucket_named first (data h) = Some (Some b) →
        set_value_from_key key v h =
          (inr v,
           with_data (store_bucket first (Some (<[second := v]> b)) (data h)) h))
  ∧ (first ∈ ["cost_day"; "cost_month"; "cost_year"] →
     set_value_from_key key v h =
       (inl (IndexError "Unknown first part of key"),
        with_record (unknown_prefix_record key) h)).
Proof.
  intros Hsplit.
  rewrite (set_value_from_key_outcome _ _ _ _ _ Hsplit). split.
  - intros b Hin Hb. apply named_in_elem_of in Hin. by rewrite Hin, Hb.
  - intros Hin.
    repeat (apply elem_of_cons in Hin as [->|Hin]; [reflexivity|]).
    by apply elem_of_nil in Hin.
Qed.

Lemma set_value_from_key_dispatch_witness :
  split_dot "config.isEnabled" = ["config"; "isEnabled"]
  ∧ "config" ∈ settable_prefixes
  ∧ set_value_from_key "config.isEnabled" (VBool false) (heap_of sample_data)
    = (inr (VBool false),
       with_data
         (store_bucket "config"
            (Some (<[ "isEnabled" := VBool false ]> {[ "isEnabled" := VBool true ]}))
            sample_data)
         (heap_of sample_data)).
Proof.
  split; [reflexivity|]. split; [elem_of_names|].
  refine (proj1 (set_value_from_key_dispatch "config.isEnabled" "config"
                   "isEnabled" (VBool false) (heap_of sample_data) _)
            {[ "isEnabled" := VBool true ]} _ _);
    [reflexivity | elem_of_names | reflexivity].
Defined.

(** C3 as stated fails on the cost prefixes: [cost_day] is recognized and its
    bucket exists, yet [set_value_from_key] raises instead of storing. *)
Lemma set_value_from_key_dispatch_counterexample :
  ¬ (∀ (key first second : string) (b : dict) (v : value) (h : Heap),
       split_dot key = [first; second] →
       first ∈ recognized_prefixes →
       bucket_named first (data h) = Some (Some b) →
       set_value_from_key key v h =
         (inr v,
          with_data (store_bucket first (Some (<[second := v]> b)) (data h)) h)).
Proof.
  intros Hclaim.
  specialize (Hclaim "cost_day.totalCost" "cost_day" "totalCost"
                {[ "totalCost" := VInt 12 ]} (VInt 15) (heap_of sample_data)).
  assert (Hres : fst (set_value_from_key "cost_day.totalCost" (VInt 15)
                        (heap_of sample_data))
                 = inl (IndexError "Unknown first part of key"))
    by reflexivity.
  rewrite Hclaim in Hres;
    [discriminate Hres | reflexivity | elem_of_names | reflexivity].
Qed.

(** ** async_update *)

Section UpdateProperties.

Variable as_local : datetime -> datetime.

Lemma get_value_from_key_state (key : string) (h : Heap) :
  _state (snd (get_value_from_key as_local key h)) = _state h.
Proof.
  destruct (decide (length (split_dot key) = 2%nat)) as [Hlen|Hlen].
  - destruct (split_dot key) as [|a [|c [|x l]]] eqn:Hsplit;
      try discriminate Hlen.
    rewrite (get_value_from_key_outcome _ _ _ _ _ Hsplit).
    destruct (bucket_named a (data h)) as [[b|]|]; [| |reflexivity].
    + by destruct (b !! c).
    + by destruct (named_in guarded_on_get a).
  - unfold get_value_from_key, try_except, bind.
    by rewrite (unpack2_other _ h Hlen).
Qed.

Lemma async_update_unfold (self : ChargerEntity) (h : Heap) :
  async_update as_local self h =
    try_except (update_state as_local self) (update_except self) (entered self h).
Proof. reflexivity. Qed.




End UpdateProperties.



(** ** Rounding *)

Section RoundingProperties.

Variable float_round : float -> float_round_error + Z.
Variable float_round_ndigits : float -> Z -> float_round_error + float.

Lemma is_watt_unit_spec (unit : option string) :
  is_watt_unit unit = true ↔ unit = Some WATT ∨ unit = Some WATT_HOUR.
Proof.
  destruct unit as [u|]; cbn.
  - rewrite orb_true_iff, !String.eqb_eq. split.
    + intros [-> | ->]; auto.
    + intros [[= ->] | [= ->]]; auto.
  - split; [discriminate | by intros [|]].
Qed.

Lemma py_round_TypeError (v : value) (decimals : option Z) :
  py_round float_round float_round_ndigits v decimals = inl TypeError
  ↔ is_numeric v = false.
Proof.
  destruct v, decimals; cbn; try done.
  - by destruct (float_round_ndigits f z) as [[]|g].
  - by destruct (float_round f) as [[]|z].
Qed.

Lemma round_to_dec_watt_numeric (v : value) (decimals : option Z)
    (unit : option string) :
  is_watt_unit unit = true → is_numeric v = true →
  round_to_dec float_round float_round_ndigits v decimals unit =
    times_1000_rounded float_round v.
Proof.
  intros Hunit Hnum. unfold round_to_dec.
  rewrite Hunit. destruct v; try discriminate Hnum; cbn; try reflexivity.
  by destruct (float_round _) as [[]|z].
Qed.

End RoundingProperties.

(** *** Rounding to the nearest integer *)

Lemma round_half_even_nearest (n p : Z) :
  0 < p → is_nearest_even n p (round_half_even n p).
Proof.
  intros Hp. unfold is_nearest_even, round_half_even.
  pose proof (Z.div_mod n p ltac:(lia)) as Hdiv.
  pose proof (Z.mod_pos_bound n p Hp) as Hmod.
  set (q := n / p) in *. set (r := n mod p) in *.
  assert (Hq : q * p = n - r) by lia.
  destruct (Z.ltb_spec (2 * r) p) as [Hlow|Hlow].
  - rewrite Hq. split; lia.
  - destruct (Z.ltb_spec p (2 * r)) as [Hhigh|Hhigh].
    + replace ((q + 1) * p - n) with (p - r) by lia. split; lia.
    + destruct (Z.even q) eqn:Heven.
      * rewrite Hq. split; [lia|done].
      * replace ((q + 1) * p - n) with (p - r) by lia. split; [lia|].
        intros _. by rewrite Z.add_1_r, Z.even_succ, <- Z.negb_even, Heven.
Qed.

Lemma is_nearest_even_unique (num den z1 z2 : Z) :
  0 < den → is_nearest_even num den z1 → is_nearest_even num den z2 → z1 = z2.
Proof.
  intros Hden [Hnear1 Htie1] [Hnear2 Htie2].
  assert (Hclose : z1 = z2 ∨ z1 = z2 + 1 ∨ z2 = z1 + 1) by nia.
  destruct Hclose as [Heq|[Heq|Heq]]; [done| |]; exfalso; subst.
  - assert (Heven : Z.even z2 = true) by (apply Htie2; lia).
    assert (Heven' : Z.even (z2 + 1) = true) by (apply Htie1; lia).
    rewrite Z.add_1_r, Z.even_succ, <- Z.negb_even, Heven in Heven'.
    discriminate Heven'.
  - assert (Heven : Z.even z1 = true) by (apply Htie1; lia).
    assert (Heven' : Z.even (z1 + 1) = true) by (apply Htie2; lia).
    rewrite Z.add_1_r, Z.even_succ, <- Z.negb_even, Heven in Heven'.
    discriminate Heven'.
Qed.

Lemma float_denominator_pos (e : Z) : 0 < float_denominator e.
Proof.
  unfold float_denominator. destruct (Z.leb_spec 0 e); [lia|].
  apply Z.pow_pos_nonneg; lia.
Qed.

(** On a finite float, [float.__round__()] returns the integer nearest to
    its exact value. *)
Lemma float_round_half_even_nearest (f : float) (s : bool) (m : positive)
    (e : Z) :
  Prim2SF f = S754_finite s m e →
  ∃ z, float_round_half_even f = inr z
       ∧ is_nearest_even (float_numerator s m e) (float_denominator e) z.
Proof.
  intros Hf. unfold float_round_half_even. rewrite Hf.
  eexists. split; [reflexivity|].
  unfold float_numerator, float_denominator.
  destruct (Z.leb_spec 0 e) as [He|He].
  - unfold is_nearest_even. destruct s; split; lia.
  - pose proof (round_half_even_nearest (Z.pos m) (2 ^ (- e))
                  ltac:(apply Z.pow_pos_nonneg; lia)) as [Hnear Htie].
    unfold is_nearest_even. destruct s; [|split; [lia|intros; apply Htie; lia]].
    rewrite Z.even_opp. split; [lia|intros; apply Htie; lia].
Qed.

Lemma finite_product_rounded (v : value) :
  finite_product v = true → ∃ z, rounded_product v z.
Proof.
  destruct v; try discriminate; cbn.
  - by eexists.
  - by eexists.
  - destruct (Prim2SF _) as [| | |s m e] eqn:Hf; try discriminate.
    + by eexists.
    + intros _.
      destruct (float_round_half_even_nearest _ _ _ _ Hf) as (z & _ & Hz).
      by exists z.
Qed.

Section RoundingNearest.

Variable float_round_ndigits : float -> Z -> float_round_error + float.

Lemma round_to_dec_rounded_product (v : value) (decimals : option Z)
    (unit : option string) (z : Z) :
  is_watt_unit unit = true → rounded_product v z →
  round_to_dec float_round_half_even float_round_ndigits v decimals unit
  = inr (VInt z).
Proof.
  intros Hunit Hz. unfold round_to_dec. rewrite Hunit.
  destruct v; try done; cbn in *.
  - subst z. by destruct b.
  - by subst z.
  - destruct (Prim2SF (PrimFloat.mul f 1000)) as [| | |s m e] eqn:Hf; try done.
    + subst z. unfold float_round_half_even. by rewrite Hf.
    + destruct (float_round_half_even_nearest _ _ _ _ Hf) as (z' & -> & Hz').
      by rewrite (is_nearest_even_unique _ _ _ _ (float_denominator_pos e) Hz Hz').
Qed.

(** C8 (as amended): with the unit [WATT] or [WATT_HOUR], for a bool, an int
    or a float whose product with 1000 is finite, [round_to_dec] returns the
    value multiplied by 1000 and rounded to the nearest integer (the even one
    on a tie), whatever number of decimals is requested, and so do
    [round_2_dec], [round_1_dec] and [round_0_dec]; with any other unit, when
    rounding raises [TypeError], the value is returned unchanged. *)
Theorem round_to_dec_units (v : value) (decimals : option Z)
    (unit : option string) :
  (unit = Some WATT ∨ unit = Some WATT_HOUR →
   finite_product v = true →
   ∃ z,
     rounded_product v z
     ∧ round_to_dec float_round_half_even float_round_ndigits v decimals unit
       = inr (VInt z)
     ∧ round_2_dec float_round_half_even float_round_ndigits v unit
       = inr (VInt z)
     ∧ round_1_dec float_round_half_even float_round_ndigits v unit
       = inr (VInt z)
     ∧ round_0_dec float_round_half_even float_round_ndigits v unit
       = inr (VInt z))
  ∧ (unit ≠ Some WATT → unit ≠ Some WATT_HOUR →
     py_round float_round_half_even float_round_ndigits v decimals
     = inl TypeError →
     round_to_dec float_round_half_even float_round_ndigits v decimals unit
     = inr v).
Proof.
  split.
  - intros Hunit%is_watt_unit_spec Hfinite.
    destruct (finite_product_rounded v Hfinite) as [z Hz].
    exists z. unfold round_2_dec, round_1_dec, round_0_dec.
    by rewrite !(round_to_dec_rounded_product _ _ _ _ Hunit Hz).
  - intros Hw Hwh Hround.
    destruct (is_watt_unit unit) eqn:Hunit.
    + apply is_watt_unit_spec in Hunit as [?|?]; contradiction.
    + unfold round_to_dec. by rewrite Hunit, Hround.
Qed.

End RoundingNearest.

Lemma round_to_dec_units_witness :
  (∃ z, rounded_product (VFloat 7.375) z
        ∧ round_1_dec float_round_half_even float_round_decimal (VFloat 7.375)
            (Some "Wh") = inr (VInt z))
  ∧ round_to_dec float_round_half_even float_round_decimal (VInt 11) (Some 2)
      (Some "W") = inr (VInt 11000)
  ∧ py_round float_round_half_even float_round_decimal (VStr "n/a") (Some 1)
    = inl TypeError
  ∧ round_to_dec float_round_half_even float_round_decimal (VStr "n/a")
      (Some 1) (Some "A") = inr (VStr "n/a").
Proof.
  pose proof (round_to_dec_units float_round_decimal) as Hthm.
  split; [|split; [reflexivity|split; [reflexivity|]]].
  - destruct (proj1 (Hthm (VFloat 7.375) None (Some "Wh"))
                (or_intror eq_refl) eq_refl) as (z & Hz & _ & _ & Hone & _).
    exists z. by split.
  - apply (proj2 (Hthm (VStr "n/a") (Some 1) (Some "A")));
      [discriminate | discriminate | reflexivity].
Defined.

(** C8 as stated fails on a float whose product with 1000 is not finite:
    for [2 ** 1020] under the unit [W] the product is an infinity, rounding it
    raises [OverflowError], and [round_to_dec], which catches [TypeError]
    only, returns nothing. *)
Lemma round_to_dec_units_counterexample :
  ¬ (∀ (v : value) (decimals : option Z) (unit : option string),
       unit = Some WATT ∨ unit = Some WATT_HOUR →
       is_numeric v = true →
       ∃ r, round_to_dec float_round_half_even float_round_decimal v
              decimals unit = inr r).
Proof.
  intros Hclaim.
  destruct (Hclaim (VFloat 0x1p+1020) (Some 1) (Some "W")
              (or_introl eq_refl) eq_refl) as [r Hr].
  assert (Hres : round_to_dec float_round_half_even float_round_decimal
                   (VFloat 0x1p+1020) (Some 1) (Some "W") = inl OverflowError)
    by reflexivity.
  rewrite Hres in Hr. discriminate Hr.
Qed.

(** ** Device conditions *)

Section ConditionProperties.

Variable DOMAIN : string.
Variable EASEE_STATUS : list (Z * string).
Variable EntityRegistry : Type.
Variable async_entries_for_device : EntityRegistry -> string -> list RegistryEntry.

(** The dictionary built in the loop is the one the specification describes. *)
Lemma condition_for_insert (device_id : string) (entry : RegistryEntry)
    (cond : string) :
  <[CONF_TYPE := cond]>
    (<[CONF_ENTITY_ID := entity_id entry]>
       (<[CONF_DOMAIN := DOMAIN]>
          (<[CONF_DEVICE_ID := device_id]>
             (<[CONF_CONDITION := "device"]> (∅ : gmap string string)))))
  = condition_for DOMAIN device_id entry cond.
Proof.
  unfold condition_for, CONF_TYPE, CONF_ENTITY_ID, CONF_DOMAIN, CONF_DEVICE_ID,
    CONF_CONDITION. cbn [list_to_map foldr fst snd uncurry].
  apply map_eq. intros k.
  destruct (decide (k = "type")) as [->|]; [by simplify_map_eq|].
  destruct (decide (k = "entity_id")) as [->|]; [by simplify_map_eq|].
  destruct (decide (k = "domain")) as [->|]; [by simplify_map_eq|].
  destruct (decide (k = "device_id")) as [->|]; [by simplify_map_eq|].
  destruct (decide (k = "condition")) as [->|]; by simplify_map_eq.
Qed.

Lemma add_conditions_app (device_id : string)
    (conditions : list (gmap string string)) (entry : RegistryEntry) :
  add_conditions DOMAIN EASEE_STATUS device_id conditions entry =
    (conditions ++
       if is_easee_status entry
       then map (condition_for DOMAIN device_id entry)
              (CONDITION_TYPES EASEE_STATUS)
       else [])%list.
Proof.
  unfold add_conditions. destruct (is_easee_status entry).
  - f_equal; try (apply map_ext; intros cond; apply condition_for_insert).
  - by rewrite app_nil_r.
Qed.

Lemma fold_add_conditions (device_id : string) (entries : list RegistryEntry)
    (conditions : list (gmap string string)) :
  fold_left (add_conditions DOMAIN EASEE_STATUS device_id) entries conditions =
    (conditions ++
       flat_map (fun entry => map (condition_for DOMAIN device_id entry)
                                (CONDITION_TYPES EASEE_STATUS))
         (List.filter is_easee_status entries))%list.
Proof.
  revert conditions.
  induction entries as [|entry entries IH]; intros conditions; cbn.
  - by rewrite app_nil_r.
  - rewrite IH, add_conditions_app.
    destruct (is_easee_status entry); cbn.
    + by rewrite <- !app_assoc.
    + by rewrite app_nil_r.
Qed.

(** C6: for every device id, [async_get_conditions] returns, in the order of
    the device's entries, for each entry whose translation key is
    [easee_status] one condition dictionary per element of [CONDITION_TYPES],
    holding exactly the condition ["device"], the device id, the domain, the
    entry's entity id and the condition type; entries with another
    translation key, or none, contribute nothing. *)
Theorem async_get_conditions_spec (registry : EntityRegistry)
    (device_id : string) :
  async_get_conditions DOMAIN EASEE_STATUS EntityRegistry
      async_entries_for_device registry device_id
  = flat_map (fun entry => map (condition_for DOMAIN device_id entry)
                             (CONDITION_TYPES EASEE_STATUS))
      (List.filter (fun entry =>
                      bool_decide (translation_key entry = Some "easee_status"))
         (async_entries_for_device registry device_id))
  ∧ length (async_get_conditions DOMAIN EASEE_STATUS EntityRegistry
              async_entries_for_device registry device_id)
    = (length (List.filter
                 (fun entry =>
                    bool_decide (translation_key entry = Some "easee_status"))
                 (async_entries_for_device registry device_id))
       * length EASEE_STATUS)%nat.
Proof.
  assert (Hfilter : ∀ entries,
             List.filter is_easee_status entries =
             List.filter (fun entry =>
                            bool_decide (translation_key entry = Some "easee_status"))
               entries).
  { intros entries. apply filter_ext. intros entry. unfold is_easee_status.
    destruct (translation_key entry) as [k|]; [|reflexivity].
    destruct (String.eqb_spec k "easee_status") as [->|Hne].
    - by rewrite bool_decide_eq_true_2.
    - rewrite bool_decide_eq_false_2; [reflexivity|]. by intros [= ->]. }
  unfold async_get_conditions.
  rewrite fold_add_conditions, Hfilter. cbn [app]. split; [reflexivity|].
  induction (List.filter _ _) as [|entry entries IH]; [reflexivity|].
  cbn [flat_map]. rewrite length_app, length_map, IH.
  unfold CONDITION_TYPES. by rewrite length_map.
Qed.

End ConditionProperties.

(** * Further properties of the two modules *)

(** ** Keys and their parts *)

Lemma split_dot_nonempty (s : string) : split_dot s ≠ [].
Proof.
  pose proof (split_dot_length s) as Hlen.
  by destruct (split_dot s).
Qed.

Lemma join_dot_cons (p : string) (ps : list string) :
  ps ≠ [] → join_dot (p :: ps) = p ++ "." ++ join_dot ps.
Proof. by destruct ps. Qed.

Lemma join_split_dot (s : string) : join_dot (split_dot s) = s.
Proof.
  induction s as [|c s IH]; [reflexivity|].
  cbn [split_dot]. pose proof (split_dot_nonempty s) as Hne.
  destruct (Ascii.eqb_spec c ".") as [->|Hc].
  - by rewrite (join_dot_cons _ _ Hne), IH.
  - destruct (split_dot s) as [|p [|p' ps]]; [done| |].
    + cbn in *. by rewrite IH.
    + rewrite join_dot_cons in IH |- * by done. cbn. by rewrite <- IH.
Qed.

Lemma split_dot_parts (s : string) :
  Forall (fun p => count_dots p = 0%nat) (split_dot s).
Proof.
  induction s as [|c s IH]; [by repeat constructor|].
  cbn [split_dot].
  destruct (Ascii.eqb c ".") eqn:Hc.
  - by constructor.
  - destruct (split_dot s) as [|p ps]; [by repeat (constructor; cbn; rewrite ?Hc)|].
    inversion IH as [|? ? Hp Hps]; subst.
    constructor; [|done]. cbn. by rewrite Hc, Hp.
Qed.

Lemma split_dot_dotless (s : string) :
  count_dots s = 0%nat → split_dot s = [s].
Proof.
  induction s as [|c s IH]; [reflexivity|].
  cbn. destruct (Ascii.eqb c "."); [discriminate|].
  intros Hs. by rewrite (IH Hs).
Qed.

Lemma split_dot_app (a b : string) :
  count_dots a = 0%nat → split_dot (a ++ "." ++ b) = a :: split_dot b.
Proof.
  change ("." ++ b) with (String "."%char b).
  induction a as [|c a IH]; [reflexivity|].
  change (String c a ++ String "."%char b)
    with (String c (a ++ String "."%char b)).
  cbn [split_dot count_dots]. destruct (Ascii.eqb c "."); [discriminate|].
  intros Ha. by rewrite (IH Ha).
Qed.

(** X1: the unpacking [first, second = key.split(".")] succeeds with the
    parts [first] and [second] exactly on the key [first.second] whose two
    parts hold no dot. *)
Theorem two_part_keys (key first second : string) :
  split_dot key = [first; second]
  ↔ key = first ++ "." ++ second
    ∧ count_dots first = 0%nat ∧ count_dots second = 0%nat.
Proof.
  split.
  - intros Hsplit.
    pose proof (join_split_dot key) as Hjoin.
    pose proof (split_dot_parts key) as Hparts.
    rewrite Hsplit in Hjoin, Hparts. cbn in Hjoin.
    inversion Hparts as [|? ? Hf Hrest]; subst.
    inversion Hrest as [|? ? Hs _]; subst. done.
  - intros (-> & Hf & Hs).
    by rewrite (split_dot_app _ _ Hf), (split_dot_dotless _ Hs).
Qed.

(** ** What the dispatch functions raise and touch *)

Section DispatchEffects.

Variable as_local : datetime -> datetime.

(** X2: [get_value_from_key] is read-only: it leaves the data object and
    the entity's state as they are, and the log too, but for the one error
    record of an unknown prefix. *)
Theorem get_value_from_key_read_only (key : string) (h : Heap) :
  data (snd (get_value_from_key as_local key h)) = data h
  ∧ _state (snd (get_value_from_key as_local key h)) = _state h
  ∧ (records (snd (get_value_from_key as_local key h)) = records h
     ∨ records (snd (get_value_from_key as_local key h))
       = (records h ++ [unknown_prefix_record key])%list).
Proof.
  destruct (decide (length (split_dot key) = 2%nat)) as [Hlen|Hlen].
  - destruct (split_dot key) as [|a [|c [|x l]]] eqn:Hsplit;
      try discriminate Hlen.
    rewrite (get_value_from_key_outcome _ _ _ _ _ Hsplit).
    destruct (bucket_named a (data h)) as [[b|]|]; [| |by auto].
    + destruct (b !! c); by auto.
    + destruct (named_in guarded_on_get a); by auto.
  - unfold get_value_from_key, try_except, bind.
    rewrite (unpack2_other _ h Hlen). by auto.
Qed.

(** X4: [set_value_from_key] raises [ValueError] for a key that is not
    two-part, [TypeError] only under the prefixes [circuit] and [site] when
    the bucket is [None], and [IndexError] for a prefix it has no branch for;
    whenever it raises, no bucket has been written. *)
Theorem set_value_from_key_raises (key : string) (v : value) (h : Heap)
    (e : exn) :
  fst (set_value_from_key key v h) = inl e →
  data (snd (set_value_from_key key v h)) = data h
  ∧ ((e = ValueError ∧ length (split_dot key) ≠ 2%nat)
     ∨ (∃ first second,
          split_dot key = [first; second]
          ∧ ((e = TypeError
              ∧ (first = "circuit" ∨ first = "site")
              ∧ bucket_named first (data h) = Some None)
             ∨ (e = IndexError "Unknown first part of key"
                ∧ first ∉ settable_prefixes)))).
Proof.
  destruct (decide (length (split_dot key) = 2%nat)) as [Hlen|Hlen].
  - destruct (split_dot key) as [|a [|c [|x l]]] eqn:Hsplit;
      try discriminate Hlen.
    rewrite (set_value_from_key_outcome _ _ _ _ _ Hsplit).
    destruct (named_in settable_prefixes a) eqn:Hin.
    + apply named_in_elem_of in Hin. unfold settable_prefixes in Hin.
      repeat (apply elem_of_cons in Hin as [->|Hin];
              [cbn; destruct (_ (data h)) as [b|] eqn:Hb; cbn;
               try discriminate; intros [= <-];
               (split; [reflexivity|]); right; eexists _, c;
               (split; [reflexivity|]); left; by auto|]).
      by apply elem_of_nil in Hin.
    + cbn. intros [= <-]. split; [reflexivity|]. right. exists a, c.
      split; [reflexivity|]. right. split; [reflexivity|].
      intros Hmem%named_in_elem_of. congruence.
  - unfold set_value_from_key, bind.
    rewrite (unpack2_other _ h Hlen). cbn. intros [= <-]. by auto.
Qed.

End DispatchEffects.

Lemma set_value_from_key_raises_witness :
  fst (set_value_from_key "site.name" (VStr "Home") (heap_of empty_data))
  = inl TypeError
  ∧ data (snd (set_value_from_key "site.name" (VStr "Home")
                 (heap_of empty_data))) = empty_data.
Proof.
  split; [reflexivity|].
  exact (proj1 (set_value_from_key_raises "site.name" (VStr "Home")
                  (heap_of empty_data) TypeError eq_refl)).
Defined.

(** ** Writing, then reading *)

Lemma store_bucket_twice (first : string) (x y : option dict)
    (d : ProductData) :
  store_bucket first x (store_bucket first y d) = store_bucket first x d.
Proof.
  unfold store_bucket; cbn.
  f_equal; by destruct (String.eqb first _).
Qed.

Section WriteRead.

Variable as_local : datetime -> datetime.

Lemma get_value_from_key_data (key : string) (h h' : Heap) :
  data h = data h' →
  fst (get_value_from_key as_local key h)
  = fst (get_value_from_key as_local key h').
Proof.
  intros Hdata.
  destruct (decide (length (split_dot key) = 2%nat)) as [Hlen|Hlen].
  - destruct (split_dot key) as [|a [|c [|x l]]] eqn:Hsplit;
      try discriminate Hlen.
    rewrite !(get_value_from_key_outcome _ _ _ _ _ Hsplit), Hdata.
    destruct (bucket_named a (data h')) as [[b|]|]; [| |reflexivity].
    + by destruct (b !! c).
    + by destruct (named_in guarded_on_get a).
  - unfold get_value_from_key, try_except, bind.
    by rewrite !(unpack2_other _ _ Hlen).
Qed.


(** X6: [set_value_from_key] on one key does not change what
    [get_value_from_key] returns or raises on any other two-part key,
    whatever the outcome of the write. *)
Theorem set_keeps_other_keys (key first second key' first' second' : string)
    (v : value) (h : Heap) :
  split_dot key = [first; second] →
  split_dot key' = [first'; second'] →
  (first', second') ≠ (first, second) →
  fst (get_value_from_key as_local key' (snd (set_value_from_key key v h)))
  = fst (get_value_from_key as_local key' h).
Proof.
  intros Hsplit Hsplit' Hne.
  rewrite (set_value_from_key_outcome _ _ _ _ _ Hsplit).
  destruct (named_in settable_prefixes first) eqn:Hin;
    [|by apply get_value_from_key_data].
  destruct (bucket_named first (data h)) as [[b|]|] eqn:Hb;
    [|destruct (named_in guarded_on_set first);
      by apply get_value_from_key_data..].
  cbn [snd].
  rewrite !(get_value_from_key_outcome _ _ _ _ _ Hsplit'). cbn [data with_data].
  destruct (decide (first' = first)) as [->|Hfirst].
  - rewrite bucket_named_store_bucket
      by by apply settable_recognized, named_in_elem_of.
    rewrite Hb, lookup_insert_ne by congruence.
    by destruct (b !! second').
  - rewrite bucket_named_store_bucket_ne by done.
    destruct (bucket_named first' (data h)) as [[b'|]|]; [| |reflexivity].
    + by destruct (b' !! second').
    + by destruct (named_in guarded_on_get first').
Qed.

End WriteRead.


Lemma set_keeps_other_keys_witness :
  fst (get_value_from_key (as_local_fixed 60) "state.totalPower"
         (snd (set_value_from_key "state.latestPulse" VNone
                 (heap_of sample_data))))
  = inr (VInt 7).
Proof.
  rewrite (set_keeps_other_keys (as_local_fixed 60) "state.latestPulse"
             "state" "latestPulse" "state.totalPower" "state" "totalPower"
             VNone (heap_of sample_data));
    [reflexivity | reflexivity | reflexivity | discriminate].
Defined.

(** X7: under a prefix [set_value_from_key] has a branch for, the last
    write wins: writing twice under one key leaves the state the second write
    alone would leave. *)
Theorem set_twice (key first second : string) (v1 v2 : value) (h : Heap) :
  split_dot key = [first; second] →
  first ∈ settable_prefixes →
  set_value_from_key key v2 (snd (set_value_from_key key v1 h))
  = set_value_from_key key v2 h.
Proof.
  intros Hsplit Hin.
  rewrite !(set_value_from_key_outcome _ _ _ _ _ Hsplit).
  apply named_in_elem_of in Hin as Hnamed. rewrite Hnamed.
  destruct (bucket_named first (data h)) as [[b|]|] eqn:Hb.
  - cbn [snd data with_data].
    rewrite bucket_named_store_bucket by by apply settable_recognized.
    by rewrite store_bucket_twice, insert_insert_eq.
  - destruct (named_in guarded_on_set first); cbn [snd]; by rewrite Hb.
  - destruct (named_in guarded_on_set first); cbn [snd]; by rewrite Hb.
Qed.

Lemma set_twice_witness :
  set_value_from_key "config.isEnabled" (VBool false)
    (snd (set_value_from_key "config.isEnabled" (VInt 3) (heap_of sample_data)))
  = set_value_from_key "config.isEnabled" (VBool false) (heap_of sample_data).
Proof.
  apply (set_twice "config.isEnabled" "config" "isEnabled");
    [reflexivity | elem_of_names].
Defined.

(** ** More on async_update *)

Lemma preserves_data_ret {A} (a : A) : preserves_data (ret a).
Proof. by intros h. Qed.

Lemma preserves_data_raise {A} (e : exn) : preserves_data (raise (A := A) e).
Proof. by intros h. Qed.

Lemma preserves_data_lift {A} (r : result A) : preserves_data (lift r).
Proof. by intros h. Qed.

Lemma preserves_data_get_data : preserves_data get_data.
Proof. by intros h. Qed.

Lemma preserves_data_get_state : preserves_data get_state.
Proof. by intros h. Qed.

Lemma preserves_data_put_state (v : value) : preserves_data (put_state v).
Proof. by intros h. Qed.

Lemma preserves_data_logger (l : level) (msg : string) :
  preserves_data (logger l msg).
Proof. by intros h. Qed.

Lemma preserves_data_bind {A B} (m : M A) (k : A -> M B) :
  preserves_data m → (∀ a, preserves_data (k a)) → preserves_data (bind m k).
Proof.
  intros Hm Hk h. unfold bind. specialize (Hm h).
  destruct (m h) as [[e|a] h']; cbn in *; [done|].
  by rewrite Hk.
Qed.

Lemma preserves_data_try_except {A} (m : M A) (handler : exn -> M A) :
  preserves_data m → (∀ e, preserves_data (handler e)) →
  preserves_data (try_except m handler).
Proof.
  intros Hm Hh h. unfold try_except. specialize (Hm h).
  destruct (m h) as [[e|a] h']; cbn in *; [|done].
  by rewrite Hh.
Qed.

Create HintDb frame discriminated.

#[export] Hint Resolve preserves_data_ret preserves_data_raise
  preserves_data_lift preserves_data_get_data preserves_data_get_state
  preserves_data_put_state preserves_data_logger : frame.

(** One statement of a sequence whose frame condition is in the database. *)
Ltac frame_bind :=
  apply preserves_data_bind; [solve [auto with frame]|intros ?].

Section UpdateMore.

Variable as_local : datetime -> datetime.

Lemma preserves_data_get_value_from_key (key : string) :
  preserves_data (get_value_from_key as_local key).
Proof. intros h. apply get_value_from_key_read_only. Qed.

Lemma preserves_data_apply_state_func (cond : bool)
    (f : option dict -> result value) (bucket : ProductData -> option dict) :
  preserves_data (apply_state_func cond f bucket).
Proof.
  unfold apply_state_func. destruct cond; [|auto with frame].
  do 2 frame_bind. auto with frame.
Qed.

(** X8: [async_update] reads the data object and never writes it: whatever
    the key, the state function and the conversion do, every bucket is
    afterwards as it was. *)
Theorem async_update_keeps_data (self : ChargerEntity) (h : Heap) :
  data (snd (async_update as_local self h)) = data h.
Proof.
  revert h. change (preserves_data (async_update as_local self)).
  unfold async_update.
  do 3 frame_bind. apply preserves_data_try_except.
  - unfold update_state.
    apply preserves_data_bind; [apply preserves_data_get_value_from_key|].
    intros v. do 2 frame_bind.
    apply preserves_data_bind; [destruct (is_empty_str _); auto with frame|].
    intros _. apply preserves_data_bind.
    + destruct (_state_func self) as [f|]; [|auto with frame].
      repeat (apply preserves_data_bind;
              [apply preserves_data_apply_state_func|intros _]).
      apply preserves_data_apply_state_func.
    + intros _. destruct (_convert_units_func self); [|auto with frame].
      do 2 frame_bind. auto with frame.
  - intros e. unfold update_except. destruct e; auto with frame.
Qed.

(** X9: a key that is not two-part makes [async_update] raise the
    [ValueError] of the unpacking, which no handler catches; an unknown prefix
    makes it log the key and raise [IndexError] with the message
    [Wrong key for entity: key]. In both cases the stored state is [None]. *)
Theorem async_update_bad_key (self : ChargerEntity) (h : Heap) :
  (length (split_dot (_state_key self)) ≠ 2%nat →
   async_update as_local self h = (inl ValueError, entered self h))
  ∧ (∀ first second,
       split_dot (_state_key self) = [first; second] →
       first ∉ recognized_prefixes →
       async_update as_local self h
       = (inl (IndexError ("Wrong key for entity: " ++ _state_key self)),
          with_record (unknown_prefix_record (_state_key self))
            (entered self h))).
Proof.
  rewrite async_update_unfold. unfold try_except, update_state, bind. split.
  - intros Hlen. unfold get_value_from_key, try_except, bind.
    by rewrite (unpack2_other _ _ Hlen).
  - intros first second Hsplit Hnot.
    by rewrite (proj1 (unknown_prefix_raises as_local _ _ _ VNone
                         (entered self h) Hsplit Hnot)).
Qed.

(** X10: without a state function and a conversion, [async_update] stores
    the looked-up value with the empty string replaced by [None], and [None]
    when the lookup raises: the stored state is never the empty string. *)
Theorem async_update_plain (self : ChargerEntity) (h : Heap) :
  _state_func self = None →
  _convert_units_func self = None →
  _state (snd (async_update as_local self h))
  = match fst (get_value_from_key as_local (_state_key self) (entered self h)) with
    | inr v => none_if_empty v
    | inl _ => VNone
    end
  ∧ _state (snd (async_update as_local self h)) ≠ VStr "".
Proof.
  intros Hf Hc.
  assert (Heq : _state (snd (async_update as_local self h))
    = match fst (get_value_from_key as_local (_state_key self) (entered self h)) with
      | inr v => none_if_empty v
      | inl _ => VNone
      end).
  { rewrite async_update_unfold. unfold try_except, update_state, bind.
    rewrite Hf, Hc.
    pose proof (get_value_from_key_state as_local (_state_key self)
                  (entered self h)) as Hstate.
    destruct (get_value_from_key as_local (_state_key self) (entered self h))
      as [[e|v] h'] eqn:Hget; cbn in *.
    - destruct e; cbn; exact Hstate.
    - unfold none_if_empty. by destruct (is_empty_str v). }
  split; [exact Heq|]. rewrite Heq.
  destruct (fst _) as [e|v]; [discriminate|].
  unfold none_if_empty. by destruct v as [| | | |[|c s]|].
Qed.

End UpdateMore.

Lemma async_update_bad_key_witness :
  async_update (as_local_fixed 60) bare_key_sensor (heap_of sample_data)
  = (inl ValueError, entered bare_key_sensor (heap_of sample_data)).
Proof.
  apply (proj1 (async_update_bad_key (as_local_fixed 60) bare_key_sensor
                  (heap_of sample_data))).
  cbn. discriminate.
Defined.

Lemma async_update_plain_witness :
  _state (snd (async_update (as_local_fixed 60) site_sensor
                 (heap_of sample_data))) = VNone.
Proof.
  exact (proj1 (async_update_plain (as_local_fixed 60) site_sensor
                  (heap_of sample_data) eq_refl eq_refl)).
Defined.

(** Decide the [startswith] tests on a key whose prefix is known. *)
Ltac eval_prefix :=
  repeat match goal with
         | |- context [String.prefix ?a ?b] =>
             let v := eval cbv in (String.prefix a b) in
             change (String.prefix a b) with v
         end.

Section UpdateCompose.

Variable as_local : datetime -> datetime.

Lemma get_value_from_key_returns (key : string) (h : Heap) (v : value) :
  fst (get_value_from_key as_local key h) = inr v →
  get_value_from_key as_local key h = (inr v, h).
Proof.
  destruct (decide (length (split_dot key) = 2%nat)) as [Hlen|Hlen].
  - destruct (split_dot key) as [|a [|c [|x l]]] eqn:Hsplit;
      try discriminate Hlen.
    rewrite (get_value_from_key_outcome _ _ _ _ _ Hsplit).
    destruct (bucket_named a (data h)) as [[b|]|]; [| |discriminate].
    + destruct (b !! c); cbn; by intros [= <-].
    + destruct (named_in guarded_on_get a); cbn; [by intros [= <-]|discriminate].
  - unfold get_value_from_key, try_except, bind.
    by rewrite (unpack2_other _ h Hlen).
Qed.

(** X11: with a state function, no conversion and a lookup that returns,
    the stored state is the state function's result on the bucket the key
    lies in when the prefix is [state], [config], [schedule] or
    [weekly_schedule]; under [circuit], [site] and the cost prefixes the
    state function is not called, and the looked-up value is stored. *)
Theorem async_update_state_func (self : ChargerEntity) (h : Heap)
    (first second : string) (f : option dict -> result value) (v0 : value) :
  split_dot (_state_key self) = [first; second] →
  _state_func self = Some f →
  _convert_units_func self = None →
  fst (get_value_from_key as_local (_state_key self) (entered self h)) = inr v0 →
  (∀ bucket r,
     first ∈ ["state"; "config"; "schedule"; "weekly_schedule"] →
     bucket_named first (data h) = Some bucket →
     f bucket = inr r →
     async_update as_local self h = (inr tt, with_state r (entered self h)))
  ∧ (first ∈ ["circuit"; "site"; "cost_day"; "cost_month"; "cost_year"] →
     async_update as_local self h
     = (inr tt, with_state (none_if_empty v0) (entered self h))).
Proof.
  intros Hsplit Hf Hc Hget.
  apply get_value_from_key_returns in Hget.
  apply two_part_keys in Hsplit as (Hkey & _ & _).
  rewrite async_update_unfold. unfold try_except, update_state, bind.
  rewrite Hget, Hf, Hc, Hkey. cbn [put_state get_state fst snd].
  split.
  - intros bucket r Hin Hb Hr.
    repeat (apply elem_of_cons in Hin as [->|Hin];
            [cbn in Hb; injection Hb as <-; eval_prefix; cbn;
             destruct (is_empty_str v0); cbn; unfold lift; rewrite Hr;
             reflexivity|]).
    by apply elem_of_nil in Hin.
  - intros Hin. unfold none_if_empty.
    repeat (apply elem_of_cons in Hin as [->|Hin];
            [eval_prefix; cbn; destruct (is_empty_str v0); reflexivity|]).
    by apply elem_of_nil in Hin.
Qed.

(** X12: rounding composes with the lookup. Take an entity with a watt
    unit, one of the rounding helpers as conversion and no state function.
    For a bool, an int or a float whose product with 1000 is finite, stored
    under the state key, [async_update] stores the value multiplied by 1000
    and rounded to the nearest integer. For a float whose product with 1000
    is an infinity, the [OverflowError] of the rounding leaves
    [async_update], which does not catch it, and the stored state is the
    float as it was looked up. *)
Theorem async_update_watt
    (float_round_ndigits : float -> Z -> float_round_error + float)
    (self : ChargerEntity) (h : Heap) (first second : string) (b : dict)
    (v : value) (decimals : option Z) :
  split_dot (_state_key self) = [first; second] →
  bucket_named first (data h) = Some (Some b) →
  b !! second = Some v →
  _state_func self = None →
  _convert_units_func self
  = Some (fun s unit =>
            round_to_dec float_round_half_even float_round_ndigits s decimals
              unit) →
  is_watt_unit (_units self) = true →
  (∀ z, rounded_product v z →
        async_update as_local self h
        = (inr tt, with_state (VInt z) (entered self h)))
  ∧ (∀ f s, v = VFloat f →
            Prim2SF (PrimFloat.mul f 1000%float) = S754_infinity s →
            async_update as_local self h
            = (inl OverflowError, with_state (VFloat f) (entered self h))).
Proof.
  intros Hsplit Hb Hv Hf Hc Hunit.
  rewrite async_update_unfold. unfold try_except, update_state, bind.
  rewrite (get_value_from_key_outcome _ _ _ _ _ Hsplit).
  cbn [entered data with_state with_record]. rewrite Hb, Hv, Hf, Hc.
  split.
  - intros z Hz.
    assert (localize as_local v = v) as -> by by destruct v.
    cbn [put_state get_state fst snd with_state _state].
    assert (is_empty_str v = false) as -> by by destruct v.
    cbn. unfold lift.
    by rewrite (round_to_dec_rounded_product _ _ _ _ _ Hunit Hz).
  - intros f s -> Hinf. cbn. unfold lift, round_to_dec. rewrite Hunit.
    cbn. unfold float_round_half_even. by rewrite Hinf.
Qed.

End UpdateCompose.

Lemma async_update_state_func_witness :
  async_update (as_local_fixed 60) pulse_sensor (heap_of sample_data)
  = (inr tt,
     with_state (VDatetime (Datetime 1700000000000000 None))
       (entered pulse_sensor (heap_of sample_data))).
Proof.
  refine (proj1 (async_update_state_func (as_local_fixed 60) pulse_sensor
                   (heap_of sample_data) "state" "totalPower"
                   (read_key "latestPulse") (VInt 7)
                   eq_refl eq_refl eq_refl eq_refl) _ _ _ eq_refl eq_refl).
  elem_of_names.
Defined.

Lemma async_update_watt_witness :
  rounded_product (VInt 7) 7000
  ∧ async_update (as_local_fixed 60) watt_sensor (heap_of sample_data)
    = (inr tt, with_state (VInt 7000) (entered watt_sensor (heap_of sample_data))).
Proof.
  split; [reflexivity|].
  exact (proj1 (async_update_watt (as_local_fixed 60) float_round_decimal
                  watt_sensor (heap_of sample_data) "state" "totalPower"
                  (<[ "latestPulse" := VDatetime (Datetime 1700000000000000 None) ]>
                     {[ "totalPower" := VInt 7 ]})
                  (VInt 7) (Some 2)
                  eq_refl eq_refl eq_refl eq_refl eq_refl eq_refl)
           7000 eq_refl).
Defined.

(** ** More on device conditions *)

Section ConditionMore.

Variable DOMAIN : string.
Variable EASEE_STATUS : list (Z * string).
Variable EntityRegistry : Type.
Variable async_entries_for_device : EntityRegistry -> string -> list RegistryEntry.
Variable HomeAssistant : Type.
Variable TemplateVars : Type.
Variable condition_state : HomeAssistant -> string -> string -> result bool.

Lemma is_easee_status_spec (entry : RegistryEntry) :
  is_easee_status entry = true ↔ translation_key entry = Some "easee_status".
Proof.
  unfold is_easee_status. destruct (translation_key entry) as [k|].
  - rewrite String.eqb_eq. split; [by intros ->|by intros [= ->]].
  - split; discriminate.
Qed.

Lemma elem_of_async_get_conditions (registry : EntityRegistry)
    (device_id : string) (c : gmap string string) :
  c ∈ async_get_conditions DOMAIN EASEE_STATUS EntityRegistry
        async_entries_for_device registry device_id
  ↔ ∃ entry cond,
      entry ∈ async_entries_for_device registry device_id
      ∧ translation_key entry = Some "easee_status"
      ∧ cond ∈ CONDITION_TYPES EASEE_STATUS
      ∧ c = condition_for DOMAIN device_id entry cond.
Proof.
  unfold async_get_conditions. rewrite fold_add_conditions. cbn [app].
  rewrite list_elem_of_In, in_flat_map. split.
  - intros (entry & Hentry & Hc).
    apply filter_In in Hentry as [Hentry Hstatus].
    apply in_map_iff in Hc as (cond & <- & Hcond).
    exists entry, cond. rewrite !list_elem_of_In.
    by rewrite <- is_easee_status_spec.
  - intros (entry & cond & Hentry & Hstatus & Hcond & ->).
    exists entry. rewrite filter_In, is_easee_status_spec, in_map_iff.
    rewrite <- !list_elem_of_In. split; [by split|]. exists cond.
    split; [reflexivity|]. by apply list_elem_of_In.
Qed.

(** X13: every condition [async_get_conditions] offers builds a checker:
    [async_condition_from_config] on it raises nothing, and the checker asks
    the host whether the offered entity, a status entity of the device, is in
    the offered state, one of [CONDITION_TYPES]. *)
Theorem offered_conditions_check (registry : EntityRegistry)
    (device_id : string) (c : gmap string string) :
  c ∈ async_get_conditions DOMAIN EASEE_STATUS EntityRegistry
        async_entries_for_device registry device_id →
  ∃ entry cond,
    entry ∈ async_entries_for_device registry device_id
    ∧ translation_key entry = Some "easee_status"
    ∧ cond ∈ CONDITION_TYPES EASEE_STATUS
    ∧ async_condition_from_config HomeAssistant TemplateVars condition_state c
      = inr (test_is_state HomeAssistant TemplateVars condition_state c cond)
    ∧ ∀ hass variables,
        test_is_state HomeAssistant TemplateVars condition_state c cond hass
          variables
        = condition_state hass (entity_id entry) cond.
Proof.
  intros (entry & cond & Hentry & Hstatus & Hcond & ->)%elem_of_async_get_conditions.
  exists entry, cond. repeat split; try done.
Qed.

(** X14: how a configuration fails. Without a [type], building the
    checker raises [KeyError]; with a [type] but without an [entity_id],
    building succeeds and it is the checker that raises [KeyError], on every
    call and without asking the host. *)
Theorem condition_config_failures (config : gmap string string) :
  (config !! CONF_TYPE = None →
   async_condition_from_config HomeAssistant TemplateVars condition_state config
   = inl (KeyError "type"))
  ∧ (∀ state, config !! CONF_TYPE = Some state →
       config !! ATTR_ENTITY_ID = None →
       async_condition_from_config HomeAssistant TemplateVars condition_state
         config
       = inr (test_is_state HomeAssistant TemplateVars condition_state config
                state)
       ∧ ∀ hass variables,
           test_is_state HomeAssistant TemplateVars condition_state config
             state hass variables
           = inl (KeyError "entity_id")).
Proof.
  unfold async_condition_from_config, test_is_state, config_item. split.
  - by intros ->.
  - intros state -> ->. done.
Qed.

(** X15: [async_get_conditions] offers nothing exactly when the device has
    no entity with the translation key [easee_status] or the status table is
    empty. *)
Theorem no_conditions (registry : EntityRegistry) (device_id : string) :
  async_get_conditions DOMAIN EASEE_STATUS EntityRegistry
    async_entries_for_device registry device_id = []
  ↔ (∀ entry, entry ∈ async_entries_for_device registry device_id →
              translation_key entry ≠ Some "easee_status")
    ∨ EASEE_STATUS = [].
Proof.
  split.
  - intros Hnil.
    destruct EASEE_STATUS as [|[code status] table] eqn:Htable; [by right|].
    left. intros entry Hentry Hstatus.
    assert (Hin : condition_for DOMAIN device_id entry status
                  ∈ async_get_conditions DOMAIN EASEE_STATUS EntityRegistry
                      async_entries_for_device registry device_id).
    { apply elem_of_async_get_conditions. exists entry, status.
      repeat split; try done. rewrite Htable. cbn. apply list_elem_of_here. }
    rewrite Htable, Hnil in Hin. by apply elem_of_nil in Hin.
  - intros Hempty.
    destruct (async_get_conditions DOMAIN EASEE_STATUS EntityRegistry
                async_entries_for_device registry device_id)
      as [|c l] eqn:Hres; [reflexivity|].
    assert (Hin : c ∈ async_get_conditions DOMAIN EASEE_STATUS EntityRegistry
                        async_entries_for_device registry device_id)
      by (rewrite Hres; apply list_elem_of_here).
    apply elem_of_async_get_conditions
      in Hin as (entry & cond & Hentry & Hstatus & Hcond & _).
    destruct Hempty as [Hnone | ->].
    + by destruct (Hnone entry Hentry).
    + by apply elem_of_nil in Hcond.
Qed.

End ConditionMore.

Lemma offered_conditions_check_witness :
  ∃ entry cond,
    entry ∈ sample_entries tt "dev1"
    ∧ translation_key entry = Some "easee_status"
    ∧ cond ∈ CONDITION_TYPES sample_status
    ∧ async_condition_from_config unit unit (fun _ _ _ => inr true)
        (condition_for "easee" "dev1"
           {| entity_id := "sensor.eh_status";
              translation_key := Some "easee_status" |} "charging")
      = inr (test_is_state unit unit (fun _ _ _ => inr true)
               (condition_for "easee" "dev1"
                  {| entity_id := "sensor.eh_status";
                     translation_key := Some "easee_status" |} "charging")
               cond)
    ∧ ∀ hass variables,
        test_is_state unit unit (fun _ _ _ => inr true)
          (condition_for "easee" "dev1"
             {| entity_id := "sensor.eh_status";
                translation_key := Some "easee_status" |} "charging")
          cond hass variables
        = inr true.
Proof.
  apply (offered_conditions_check "easee" sample_status unit sample_entries
           unit unit (fun _ _ _ => inr true) tt "dev1").
  cbn. elem_of_names.
Defined.

Lemma condition_config_failures_witness :
  async_condition_from_config unit unit (fun _ _ _ => inr true)
    {[ "entity_id" := "sensor.eh_status" ]}
  = inl (KeyError "type").
Proof.
  apply (proj1 (condition_config_failures unit unit (fun _ _ _ => inr true)
                  {[ "entity_id" := "sensor.eh_status" ]})).
  reflexivity.
Defined.

Section ConditionDistinct.

Variable DOMAIN : string.
Variable EASEE_STATUS : list (Z * string).
Variable EntityRegistry : Type.
Variable async_entries_for_device : EntityRegistry -> string -> list RegistryEntry.

Lemma condition_for_inj (device_id : string) (entry entry' : RegistryEntry)
    (cond cond' : string) :
  condition_for DOMAIN device_id entry cond
  = condition_for DOMAIN device_id entry' cond' →
  entity_id entry = entity_id entry' ∧ cond = cond'.
Proof.
  intros Heq. split.
  - apply (f_equal (fun c : gmap string string => c !! "entity_id")) in Heq.
    cbn in Heq. by injection Heq.
  - apply (f_equal (fun c : gmap string string => c !! "type")) in Heq.
    cbn in Heq. by injection Heq.
Qed.

Lemma NoDup_conditions_of_entry (device_id : string) (entry : RegistryEntry)
    (types : list string) :
  NoDup types → NoDup (map (condition_for DOMAIN device_id entry) types).
Proof.
  induction 1 as [|cond types Hnotin _ IH]; cbn; constructor; [|exact IH].
  intros Hin. apply list_elem_of_In, in_map_iff in Hin as (cond' & Heq & Hin).
  apply condition_for_inj in Heq as [_ ->].
  by apply Hnotin, list_elem_of_In.
Qed.

Lemma NoDup_conditions (device_id : string) (entries : list RegistryEntry)
    (types : list string) :
  NoDup (map entity_id entries) → NoDup types →
  NoDup (flat_map (fun entry => map (condition_for DOMAIN device_id entry) types)
           entries).
Proof.
  intros Hentries Htypes.
  induction entries as [|entry entries IH]; cbn; [constructor|].
  cbn in Hentries. apply NoDup_cons in Hentries as [Hnotin Hentries].
  apply NoDup_app. split; [by apply NoDup_conditions_of_entry|].
  split; [|by apply IH].
  intros c Hc Hc'.
  apply list_elem_of_In, in_map_iff in Hc as (cond & <- & _).
  apply list_elem_of_In, in_flat_map in Hc' as (entry' & Hentry' & Hc').
  apply in_map_iff in Hc' as (cond' & Heq & _).
  apply condition_for_inj in Heq as [Hid _].
  apply Hnotin. rewrite <- Hid.
  apply list_elem_of_In, in_map. exact Hentry'.
Qed.

(** X16: when the status entities of the device have pairwise distinct
    entity ids and the status table names no state twice,
    [async_get_conditions] offers no condition twice. *)
Theorem conditions_distinct (registry : EntityRegistry) (device_id : string) :
  NoDup (map entity_id
           (List.filter is_easee_status
              (async_entries_for_device registry device_id))) →
  NoDup (CONDITION_TYPES EASEE_STATUS) →
  NoDup (async_get_conditions DOMAIN EASEE_STATUS EntityRegistry
           async_entries_for_device registry device_id).
Proof.
  intros Hentries Htypes. unfold async_get_conditions.
  rewrite fold_add_conditions. cbn [app]. by apply NoDup_conditions.
Qed.

End ConditionDistinct.

Lemma conditions_distinct_witness :
  NoDup (async_get_conditions "easee" sample_status unit sample_entries tt
           "dev1").
Proof.
  apply (conditions_distinct "easee" sample_status unit sample_entries tt
           "dev1").
  - cbn. apply NoDup_singleton.
  - cbn. repeat (apply NoDup_cons; split;
                 [intros Hin; not_elem_of_names Hin|]).
    apply NoDup_nil_2.
Defined.

(** ** More on rounding *)

Lemma str_length_app (s t : string) :
  String.length (s ++ t) = (String.length s + String.length t)%nat.
Proof.
  induction s as [|c s IH]; [reflexivity|].
  change (String c s ++ t) with (String c (s ++ t)). cbn. by rewrite IH.
Qed.

Lemma str_repeat_length (s : string) (n : nat) :
  String.length (str_repeat s n) = (n * String.length s)%nat.
Proof.
  induction n as [|n IH]; [reflexivity|].
  cbn [str_repeat]. rewrite str_length_app, IH. cbn. lia.
Qed.

Section RoundingMore.

Variable float_round : float -> float_round_error + Z.
Variable float_round_ndigits : float -> Z -> float_round_error + float.

(** X17: [round_to_dec] raises [TypeError] exactly when the unit is a watt
    unit and the value is [None] or a datetime, the multiplication being
    outside the [try]; with any other unit it never does. *)
Theorem round_to_dec_TypeError (v : value) (decimals : option Z)
    (unit : option string) :
  round_to_dec float_round float_round_ndigits v decimals unit = inl TypeError
  ↔ (unit = Some WATT ∨ unit = Some WATT_HOUR)
    ∧ (v = VNone ∨ ∃ t, v = VDatetime t).
Proof.
  rewrite <- is_watt_unit_spec. unfold round_to_dec.
  destruct (is_watt_unit unit).
  - destruct v; cbn; try (split; [discriminate|];
                          intros [_ [?|[? ?]]]; discriminate).
    + split; [intros _|reflexivity]. by auto.
    + destruct (float_round _) as [[]|z]; cbn;
        (split; [discriminate|intros [_ [?|[? ?]]]; discriminate]).
    + split; [intros _|reflexivity]. split; [done|]. right. by eexists.
  - split; [|intros [? _]; discriminate].
    destruct (py_round float_round float_round_ndigits v decimals)
      as [e|r] eqn:Hround; [|discriminate].
    destruct e; try discriminate.
    all: destruct v, decimals; cbn in Hround; try discriminate Hround.
    all: try (destruct (float_round_ndigits _ _) as [[]|?]; discriminate Hround).
    all: try (destruct (float_round _) as [[]|?]; discriminate Hround).
Qed.

(** X18: with a watt unit a string is returned repeated 1000 times, 1000
    times as long: the fallback after the failed rounding returns the
    multiplied value, not the argument. *)
Theorem round_to_dec_watt_str (s : string) (decimals : option Z)
    (unit : option string) :
  unit = Some WATT ∨ unit = Some WATT_HOUR →
  round_to_dec float_round float_round_ndigits (VStr s) decimals unit
  = inr (VStr (str_repeat s 1000))
  ∧ String.length (str_repeat s 1000) = (1000 * String.length s)%nat.
Proof.
  intros Hunit%is_watt_unit_spec. unfold round_to_dec. rewrite Hunit.
  split; [reflexivity|apply str_repeat_length].
Qed.

(** X19: with a watt unit, whatever [round_to_dec] returns for a numeric
    value (a bool, an int or a float) is an integer. *)
Theorem round_to_dec_watt_int (v r : value) (decimals : option Z)
    (unit : option string) :
  unit = Some WATT ∨ unit = Some WATT_HOUR →
  is_numeric v = true →
  round_to_dec float_round float_round_ndigits v decimals unit = inr r →
  ∃ z, r = VInt z.
Proof.
  intros Hunit%is_watt_unit_spec Hnum.
  rewrite (round_to_dec_watt_numeric _ _ _ _ _ Hunit Hnum).
  destruct v; try discriminate Hnum; cbn.
  - intros [= <-]. by eexists.
  - intros [= <-]. by eexists.
  - destruct (float_round _) as [e|z]; [discriminate|].
    intros [= <-]. by eexists.
Qed.

End RoundingMore.

Lemma round_to_dec_watt_str_witness :
  round_to_dec float_round_half_even float_round_decimal (VStr "n/a") (Some 1)
    (Some "W") = inr (VStr (str_repeat "n/a" 1000)).
Proof.
  apply (proj1 (round_to_dec_watt_str float_round_half_even
                  float_round_decimal "n/a" (Some 1) (Some "W")
                  (or_introl eq_refl))).
Defined.

Lemma round_to_dec_watt_int_witness :
  round_to_dec float_round_half_even float_round_decimal (VFloat 2.5) (Some 2)
    (Some "Wh") = inr (VInt 2500)
  ∧ ∃ z, VInt 2500 = VInt z.
Proof.
  split; [reflexivity|].
  apply (round_to_dec_watt_int float_round_half_even float_round_decimal
           (VFloat 2.5) (VInt 2500) (Some 2) (Some "Wh")
           (or_intror eq_refl) eq_refl eq_refl).
Defined.

(** ** Status mapping *)

Section StatusMappingProperties.

Variable EASEE_STATUS : list (Z * string).
Variable format_value : value -> string.

(** X20: for a status code of the table, [map_charger_status] returns one
    of [CONDITION_TYPES], the states device conditions are offered for,
    whatever the unit; for any other value it returns [unknown] followed by
    the formatted value. *)
Theorem map_charger_status_known (v : value) (unit : option string) :
  (∀ k, int_key v = Some k → k ∈ map fst EASEE_STATUS →
        map_charger_status EASEE_STATUS format_value v unit
        ∈ CONDITION_TYPES EASEE_STATUS)
  ∧ ((∀ k, int_key v = Some k → k ∉ map fst EASEE_STATUS) →
     map_charger_status EASEE_STATUS format_value v unit
     = "unknown " ++ format_value v).
Proof.
  unfold map_charger_status, table_get, CONDITION_TYPES. split.
  - intros k -> Hk.
    destruct (List.find _ EASEE_STATUS) as [item|] eqn:Hfind.
    + apply find_some in Hfind as [Hin _].
      apply list_elem_of_In, in_map. exact Hin.
    + apply list_elem_of_In, in_map_iff in Hk as (item & <- & Hin).
      apply (find_none _ _ Hfind) in Hin. cbn in Hin.
      by rewrite Z.eqb_refl in Hin.
  - intros Hnone. destruct (int_key v) as [k|]; [|reflexivity].
    destruct (List.find _ EASEE_STATUS) as [item|] eqn:Hfind; [|reflexivity].
    apply find_some in Hfind as [Hin Heq]. apply Z.eqb_eq in Heq.
    destruct (Hnone k eq_refl). rewrite <- Heq.
    apply list_elem_of_In, in_map. exact Hin.
Qed.

End StatusMappingProperties.

Lemma map_charger_status_known_witness :
  map_charger_status sample_status (fun _ => "?") (VFloat 3) (Some "W")
  ∈ CONDITION_TYPES sample_status.
Proof.
  apply (proj1 (map_charger_status_known sample_status (fun _ => "?")
                  (VFloat 3) (Some "W")) 3 eq_refl).
  cbn. elem_of_names.
Defined.

(** ** State attributes *)

Lemma count_underscores_replace_dot (s : string) :
  count_underscores (replace_dot s)
  = (count_underscores s + count_dots s)%nat.
Proof.
  induction s as [|c s IH]; [reflexivity|].
  cbn [replace_dot count_underscores count_dots]. rewrite IH.
  destruct (Ascii.eqb_spec c ".") as [->|Hc]; [cbn; lia|].
  destruct (Ascii.eqb c "_"); lia.
Qed.

Lemma replace_dot_two_part (key name : string) :
  length (split_dot key) = 2%nat → count_underscores name = 0%nat →
  replace_dot key ≠ name.
Proof.
  intros Hlen Hname Heq. rewrite split_dot_length in Hlen.
  apply (f_equal count_underscores) in Heq.
  rewrite count_underscores_replace_dot, Hname in Heq. lia.
Qed.

Section AttributesProperties.

Variable as_local : datetime -> datetime.
Variable float_round : float -> float_round_error + Z.
Variable float_round_ndigits : float -> Z -> float_round_error + float.

Lemma get_value_from_key_two_part (key : string) (h : Heap) (v : value) :
  fst (get_value_from_key as_local key h) = inr v →
  length (split_dot key) = 2%nat.
Proof.
  intros Hget.
  destruct (decide (length (split_dot key) = 2%nat)) as [Hlen|Hlen]; [done|].
  unfold get_value_from_key, try_except, bind in Hget.
  by rewrite (unpack2_other _ h Hlen) in Hget.
Qed.

Lemma get_value_from_key_exn (key : string) (h : Heap) (e : exn) :
  fst (get_value_from_key as_local key h) = inl e →
  e = ValueError ∨ e = TypeError ∨ ∃ msg, e = IndexError msg.
Proof.
  destruct (decide (length (split_dot key) = 2%nat)) as [Hlen|Hlen].
  - destruct (split_dot key) as [|a [|c [|x l]]] eqn:Hsplit;
      try discriminate Hlen.
    rewrite (get_value_from_key_outcome _ _ _ _ _ Hsplit).
    destruct (bucket_named a (data h)) as [[b|]|].
    + by destruct (b !! c).
    + destruct (named_in guarded_on_get a); [discriminate|].
      intros [= <-]. by auto.
    + intros [= <-]. right. right. by eexists.
  - unfold get_value_from_key, try_except, bind.
    rewrite (unpack2_other _ h Hlen). intros [= <-]. by auto.
Qed.

Lemma round_to_dec_exn (v : value) (decimals : option Z)
    (unit : option string) (e : exn) :
  round_to_dec float_round float_round_ndigits v decimals unit = inl e →
  e = TypeError ∨ e = OverflowError ∨ e = ValueError.
Proof.
  unfold round_to_dec.
  destruct (is_watt_unit unit).
  - destruct v; cbn; try discriminate; try (intros [= <-]; by auto).
    destruct (float_round _) as [[]|z]; cbn; intros [= <-]; by auto.
  - destruct v, decimals; cbn; try discriminate.
    + destruct (float_round_ndigits _ _) as [[]|g]; cbn; intros [= <-]; by auto.
    + destruct (float_round _) as [[]|z]; cbn; intros [= <-]; by auto.
Qed.

(** What one turn of the loop does when it returns, and what it can raise. *)
Lemma set_attr_outcome (self : ChargerEntity) (attrs : dict)
    (attr_key : string) (h : Heap) :
  match set_attr as_local float_round float_round_ndigits self attrs attr_key h with
  | (inr attrs', _) =>
      length (split_dot attr_key) = 2%nat
      ∧ ∃ r, attrs' = <[replace_dot attr_key := r]> attrs
  | (inl e, _) =>
      e = ValueError ∨ e = OverflowError ∨ e = TypeError
      ∨ ∃ msg, e = IndexError msg
  end.
Proof.
  pose proof (get_value_from_key_two_part attr_key h) as Htwo.
  pose proof (get_value_from_key_exn attr_key h) as Hexn.
  unfold set_attr.
  repeat (destruct (contains _ _); cbn [orb]);
    unfold bind, lift, round_0_dec, round_1_dec;
    (destruct (get_value_from_key as_local attr_key h) as [[e|v] h'];
     cbn [fst] in Htwo, Hexn;
     [destruct (Hexn e eq_refl) as [->|[->|[msg ->]]];
      first [by auto 6 | do 3 right; by eexists]
     |specialize (Htwo v eq_refl)]);
    try (split; [exact Htwo|by eexists]);
    match goal with
    | |- context [round_to_dec ?fr ?frn ?x ?d ?u] =>
        pose proof (round_to_dec_exn x d u) as Hround;
        destruct (round_to_dec fr frn x d u) as [e|r];
        [destruct (Hround e eq_refl) as [->|[->| ->]]; by auto
        |split; [exact Htwo|by eexists]]
    end.
Qed.

Lemma set_attrs_outcome (self : ChargerEntity) (attrs_keys : list string)
    (attrs : dict) (h : Heap) :
  match set_attrs as_local float_round float_round_ndigits self attrs_keys attrs h with
  | (inr attrs', _) =>
      Forall (fun attr_key => length (split_dot attr_key) = 2%nat) attrs_keys
      ∧ dom attrs' = dom attrs ∪ list_to_set (replace_dot <$> attrs_keys)
      ∧ ∀ key, key ∉ replace_dot <$> attrs_keys → attrs' !! key = attrs !! key
  | (inl e, _) =>
      e = ValueError ∨ e = OverflowError ∨ e = TypeError
      ∨ ∃ msg, e = IndexError msg
  end.
Proof.
  revert attrs h.
  induction attrs_keys as [|attr_key rest IH]; intros attrs h.
  - cbn. split; [constructor|]. split; [set_solver|done].
  - cbn [set_attrs]. unfold bind.
    pose proof (set_attr_outcome self attrs attr_key h) as Hone.
    destruct (set_attr _ _ _ self attrs attr_key h) as [[e|attrs1] h1];
      [exact Hone|].
    destruct Hone as (Htwo & r & ->).
    specialize (IH (<[replace_dot attr_key := r]> attrs) h1).
    destruct (set_attrs _ _ _ self rest _ h1) as [[e|attrs2] h2]; [exact IH|].
    destruct IH as (Hrest & Hdom & Hframe).
    split; [by constructor|]. split.
    + rewrite Hdom, dom_insert_L, fmap_cons, list_to_set_cons. set_solver.
    + intros key Hkey. rewrite fmap_cons, not_elem_of_cons in Hkey.
      destruct Hkey as [Hne Hkey].
      by rewrite (Hframe key Hkey), lookup_insert_ne.
Qed.

Lemma set_attrs_app (self : ChargerEntity) (pre rest : list string)
    (attrs : dict) (h : Heap) :
  set_attrs as_local float_round float_round_ndigits self (pre ++ rest) attrs h
  = bind (set_attrs as_local float_round float_round_ndigits self pre attrs)
      (set_attrs as_local float_round float_round_ndigits self rest) h.
Proof.
  revert attrs h. induction pre as [|attr_key pre IH]; intros attrs h.
  - reflexivity.
  - cbn [app set_attrs]. unfold bind.
    destruct (set_attr _ _ _ self attrs attr_key h) as [[e|attrs1] h1];
      [reflexivity|].
    rewrite IH. reflexivity.
Qed.

(** X21: [extra_state_attributes] never lets a [TypeError] or an
    [IndexError] out: as soon as one attribute key raises one of them, in the
    lookup (a bucket that is [None], an unknown prefix) or in the rounding,
    the entries collected from the keys before it are dropped and the empty
    dictionary is returned. *)
Theorem extra_state_attributes_raises (self : ChargerEntity)
    (_attrs_keys : list string) (name : string) (h : Heap) :
  (∀ e,
     fst (extra_state_attributes as_local float_round float_round_ndigits self
            _attrs_keys name h) = inl e →
     e ≠ TypeError ∧ ∀ msg, e ≠ IndexError msg)
  ∧ (∀ pre bad rest attrs1 h1 e,
       _attrs_keys = (pre ++ bad :: rest)%list →
       set_attrs as_local float_round float_round_ndigits self pre
         (<["id" := VStr (product (data h))]> (<["name" := VStr name]> ∅)) h
       = (inr attrs1, h1) →
       fst (set_attr as_local float_round float_round_ndigits self attrs1 bad h1)
       = inl e →
       e = TypeError ∨ (∃ msg, e = IndexError msg) →
       extra_state_attributes as_local float_round float_round_ndigits self
         _attrs_keys name h
       = (inr ∅,
          snd (set_attr as_local float_round float_round_ndigits self attrs1
                 bad h1))).
Proof.
  unfold extra_state_attributes, try_except. split.
  - intros e.
    destruct (bind get_data _ h) as [[e0|attrs] h']; [|discriminate].
    destruct e0; cbn; try discriminate; intros [= <-]; done.
  - intros pre bad rest attrs1 h1 e -> Hpre Hbad He.
    unfold bind at 1. cbn [get_data].
    rewrite set_attrs_app. unfold bind. rewrite Hpre.
    cbn [set_attrs]. unfold bind.
    destruct (set_attr _ _ _ self attrs1 bad h1) as [[e0|attrs2] h2];
      [|discriminate Hbad].
    cbn in Hbad. injection Hbad as ->.
    by destruct He as [->|[msg ->]].
Qed.

(** X22: the dictionary [extra_state_attributes] returns is empty or
    complete, never partial: either it is empty (a [TypeError] or an
    [IndexError] was swallowed), or every attribute key is two-part, the
    dictionary has exactly the keys [name], [id] and the attribute keys with
    the dot replaced by an underscore, and [name] and [id] hold the product's
    name and id, no attribute key having overwritten them. *)
Theorem extra_state_attributes_complete (self : ChargerEntity)
    (_attrs_keys : list string) (name : string) (h : Heap) (attrs : dict) :
  fst (extra_state_attributes as_local float_round float_round_ndigits self
         _attrs_keys name h) = inr attrs →
  attrs = ∅
  ∨ (Forall (fun attr_key => length (split_dot attr_key) = 2%nat) _attrs_keys
     ∧ dom attrs
       = {[ "name"; "id" ]} ∪ list_to_set (replace_dot <$> _attrs_keys)
     ∧ attrs !! "name" = Some (VStr name)
     ∧ attrs !! "id" = Some (VStr (product (data h)))).
Proof.
  unfold extra_state_attributes, try_except, bind. cbn [get_data].
  pose proof (set_attrs_outcome self _attrs_keys
                (<["id" := VStr (product (data h))]>
                   (<["name" := VStr name]> ∅)) h) as Hloop.
  destruct (set_attrs _ _ _ self _attrs_keys _ h) as [[e0|attrs'] h'].
  - destruct e0; cbn; try discriminate; intros [= <-]; by left.
  - cbn. intros [= <-]. right.
    destruct Hloop as (Htwo & Hdom & Hframe).
    assert (Hfresh : ∀ key, count_underscores key = 0%nat →
                            key ∉ replace_dot <$> _attrs_keys).
    { intros key Hkey (attr_key & -> & Hin)%list_elem_of_fmap.
      rewrite Forall_forall in Htwo.
      by apply (replace_dot_two_part attr_key (replace_dot attr_key)
                  (Htwo _ Hin) Hkey). }
    split; [exact Htwo|]. split; [|split].
    + rewrite Hdom, !dom_insert_L, dom_empty_L. set_solver.
    + by rewrite (Hframe "name" (Hfresh "name" eq_refl)).
    + by rewrite (Hframe "id" (Hfresh "id" eq_refl)).
Qed.

End AttributesProperties.

Lemma extra_state_attributes_raises_witness :
  extra_state_attributes (as_local_fixed 60) float_round_half_even
    float_round_decimal power_sensor ["state.totalPower"; "session.energy"]
    "Charger" (heap_of sample_data)
  = (inr ∅, with_record (unknown_prefix_record "session.energy")
              (heap_of sample_data)).
Proof.
  exact (proj2 (extra_state_attributes_raises (as_local_fixed 60)
                  float_round_half_even float_round_decimal power_sensor
                  ["state.totalPower"; "session.energy"] "Charger"
                  (heap_of sample_data))
           ["state.totalPower"] "session.energy" [] _ _
           (IndexError "Unknown first part of key") eq_refl eq_refl eq_refl
           (or_intror (ex_intro _ _ eq_refl))).
Defined.

Lemma extra_state_attributes_complete_witness :
  ∃ attrs,
    fst (extra_state_attributes (as_local_fixed 60) float_round_half_even
           float_round_decimal power_sensor
           ["state.totalPower"; "config.isEnabled"] "Charger"
           (heap_of sample_data)) = inr attrs
    ∧ attrs !! "state_totalPower" = Some (VInt 7)
    ∧ (attrs = ∅ ∨ attrs !! "name" = Some (VStr "Charger")).
Proof.
  eexists. split; [reflexivity|]. split; [reflexivity|].
  destruct (extra_state_attributes_complete (as_local_fixed 60)
              float_round_half_even float_round_decimal power_sensor
              ["state.totalPower"; "config.isEnabled"] "Charger"
              (heap_of sample_data) _ eq_refl) as [Hempty|(_ & _ & Hname & _)].
  - left. exact Hempty.
  - right. exact Hname.
Defined.

(** ** Construction *)

Lemma unique_id_split (product_id product_id' name name' : string) :
  count_underscores product_id = 0%nat →
  count_underscores product_id' = 0%nat →
  product_id ++ String "_"%char name = product_id' ++ String "_"%char name' →
  product_id = product_id' ∧ name = name'.
Proof.
  revert product_id'.
  induction product_id as [|c s IH]; intros [|c' s']; cbn.
  - intros _ _ [= ->]. done.
  - intros _ Hc' [= <- _]. discriminate Hc'.
  - intros Hc _ [= -> _]. discriminate Hc.
  - intros Hc Hc' [= -> Hrest].
    destruct (Ascii.eqb c' "_"); [discriminate Hc|].
    destruct (IH s' Hc Hc' Hrest) as [-> ->]. done.
Qed.

(** X23: the unique id tells entities apart as long as product ids hold
    no underscore: two entities with the same unique id then have the same
    product id and the same name. *)
Theorem unique_id_inj (product_id product_id' name name' : string) :
  count_underscores product_id = 0%nat →
  count_underscores product_id' = 0%nat →
  unique_id product_id name = unique_id product_id' name' →
  product_id = product_id' ∧ name = name'.
Proof. intros Hp Hp'. by apply unique_id_split. Qed.

Lemma unique_id_inj_witness :
  count_underscores "EH000001" = 0%nat
  ∧ ("EH000001" = "EH000001" ∧ "max_current" = "max_current").
Proof.
  split; [reflexivity|].
  apply (unique_id_inj "EH000001" "EH000001" "max_current" "max_current");
    reflexivity.
Defined.

Example unique_id_clash : unique_id "EH_1" "power" = unique_id "EH" "1_power".
Proof. reflexivity. Qed.

(** X24: [__init__] registers the entity for its state key and for each
    attribute key, and for nothing else; when the attribute keys are pairwise
    distinct no key is registered twice, the state key included. *)
Theorem registered_keys_spec (state_key : string) (attrs_keys : list string) :
  (∀ key, key ∈ registered_keys state_key attrs_keys
          ↔ key = state_key ∨ key ∈ attrs_keys)
  ∧ (NoDup attrs_keys → NoDup (registered_keys state_key attrs_keys)).
Proof.
  unfold registered_keys. split.
  - intros key. case_bool_decide as Hin; cbn.
    + split; [by right|]. by intros [->|].
    + rewrite elem_of_cons. tauto.
  - intros Hnodup. case_bool_decide as Hin; cbn; [done|].
    by apply NoDup_cons.
Qed.

Lemma registered_keys_spec_witness :
  NoDup (registered_keys "state.totalPower"
           ["state.totalPower"; "state.voltage"]).
Proof.
  apply (proj2 (registered_keys_spec "state.totalPower"
                  ["state.totalPower"; "state.voltage"])).
  apply NoDup_cons. split; [intros Hin; not_elem_of_names Hin|].
  apply NoDup_singleton.
Defined.

(** ** Removal *)

Lemma remove_first_elem_of (self x : nat) (l : list nat) :
  x ≠ self → x ∈ remove_first self l ↔ x ∈ l.
Proof.
  intros Hne. induction l as [|y l IH]; [done|]. cbn.
  destruct (Nat.eqb_spec self y) as [<-|Hy].
  - rewrite elem_of_cons. split; [by right|]. by intros [->|].
  - rewrite !elem_of_cons, IH. done.
Qed.

Lemma remove_first_NoDup (self : nat) (l : list nat) :
  NoDup l → (self ∉ remove_first self l) ∧ NoDup (remove_first self l).
Proof.
  induction 1 as [|y l Hy Hl IH]; cbn; [split; [apply not_elem_of_nil|constructor]|].
  destruct (Nat.eqb_spec self y) as [->|Hne]; [done|].
  destruct IH as [Hself Hnodup]. split.
  - rewrite not_elem_of_cons. done.
  - constructor; [|done]. by rewrite remove_first_elem_of.
Qed.

Lemma discard_spec (self : nat) (l : list nat) :
  (∀ x, x ≠ self → x ∈ discard self l ↔ x ∈ l)
  ∧ (NoDup l → (self ∉ discard self l) ∧ NoDup (discard self l)).
Proof.
  unfold discard. case_bool_decide as Hin.
  - split; [intros x Hx; by apply remove_first_elem_of|].
    apply remove_first_NoDup.
  - split; done.
Qed.

Section RemovalProperties.

Variable entity_device : string -> option (option string).
Variable device_entry_id : option string -> option string.
Variable entries_for_device : option string -> nat.

Lemma removal_controller (self : nat)
    (self_entity_id entity_name site_name : string)
    (sites_to_remove : list string) (controller : Controller) :
  entity_lists
    (controller_after
       (async_will_remove_from_hass entity_device device_entry_id
          entries_for_device self self_entity_id entity_name site_name
          sites_to_remove controller))
  = map (discard self) (entity_lists controller).
Proof.
  unfold async_will_remove_from_hass.
  destruct (entity_device self_entity_id) as [device_id|]; [|reflexivity].
  case_bool_decide; [|reflexivity].
  destruct (Nat.eqb _ 1); [|reflexivity].
  by destruct (device_entry_id device_id).
Qed.

(** X25: whether or not it raises, [async_will_remove_from_hass] takes the
    entity out of the controller's eight lists and leaves every other entity
    in them: an entity other than the removed one is in a list afterwards
    exactly when it was before, and a list without duplicates no longer holds
    the removed entity. *)
Theorem removal_clears_controller (self : nat)
    (self_entity_id entity_name site_name : string)
    (sites_to_remove : list string) (controller : Controller) :
  Forall2
    (fun before after =>
       (∀ x, x ≠ self → x ∈ after ↔ x ∈ before)
       ∧ (NoDup before → (self ∉ after) ∧ NoDup after))
    (entity_lists controller)
    (entity_lists
       (controller_after
          (async_will_remove_from_hass entity_device device_entry_id
             entries_for_device self self_entity_id entity_name site_name
             sites_to_remove controller))).
Proof.
  rewrite removal_controller. unfold entity_lists. cbn [map].
  repeat (constructor; [apply discard_spec|]). constructor.
Qed.

(** X26: what [async_will_remove_from_hass] asks of the registries. It
    makes at most one removal call, and none unless the entity's site is
    among the sites to remove; it removes the device instead of the entity
    exactly when the entity is the only one left on its device; and it raises
    [AttributeError], with no call made, when the entity is not registered,
    or when the device to remove is not. *)
Theorem removal_registry_calls (self : nat)
    (self_entity_id entity_name site_name : string)
    (sites_to_remove : list string) (controller : Controller) :
  let run := async_will_remove_from_hass entity_device device_entry_id
               entries_for_device self self_entity_id entity_name site_name
               sites_to_remove controller in
  match entity_device self_entity_id with
  | None => raised run = inl AttributeError ∧ registry_calls run = []
  | Some device_id =>
      if bool_decide (site_name ∈ sites_to_remove) then
        if decide (entries_for_device device_id = 1%nat) then
          match device_entry_id device_id with
          | Some id =>
              raised run = inr tt ∧ registry_calls run = [RemoveDevice id]
          | None => raised run = inl AttributeError ∧ registry_calls run = []
          end
        else
          raised run = inr tt
          ∧ registry_calls run = [RemoveEntity self_entity_id]
      else raised run = inr tt ∧ registry_calls run = []
  end.
Proof.
  cbn zeta. unfold async_will_remove_from_hass.
  destruct (entity_device self_entity_id) as [device_id|]; [|done].
  case_bool_decide; [|done].
  destruct (decide (entries_for_device device_id = 1%nat)) as [->|Hne].
  - by destruct (device_entry_id device_id).
  - by destruct (Nat.eqb_spec (entries_for_device device_id) 1).
Qed.

End RemovalProperties.

Example removal_of_last_entity :
  async_will_remove_from_hass
    (fun _ => Some (Some "dev1")) (fun device => device) (fun _ => 1%nat)
    2%nat "sensor.eh_power" "power" "Home" ["Home"] sample_controller
  = {| raised := inr tt;
       controller_after :=
         {| sensor_entities := [1; 3]%nat; binary_sensor_entities := [4%nat];
            switch_entities := []; button_entities := []; light_entities := [];
            equalizer_sensor_entities := [];
            equalizer_binary_sensor_entities := [];
            equalizer_switch_entities := [] |};
       registry_calls := [RemoveDevice "dev1"];
       removal_records := [Log DEBUG "Removing _entity_name: power"] |}.
Proof. reflexivity. Qed.

Example removal_of_unregistered_entity :
  async_will_remove_from_hass
    (fun _ => None) (fun device => device) (fun _ => 1%nat)
    4%nat "binary_sensor.eh_online" "online" "Home" [] sample_controller
  = {| raised := inl AttributeError;
       controller_after :=
         {| sensor_entities := [1; 2; 3]%nat; binary_sensor_entities := [];
            switch_entities := []; button_entities := []; light_entities := [];
            equalizer_sensor_entities := [];
            equalizer_binary_sensor_entities := [];
            equalizer_switch_entities := [] |};
       registry_calls := []; removal_records := [] |}.
Proof. reflexivity. Qed.

(** ** Further sample runs *)

Lemma two_part_keys_witness :
  split_dot "weekly_schedule.isEnabled" = ["weekly_schedule"; "isEnabled"].
Proof.
  apply (proj2 (two_part_keys "weekly_schedule.isEnabled" "weekly_schedule"
                  "isEnabled")).
  repeat split.
Defined.

Lemma no_conditions_witness :
  async_get_conditions "easee" sample_status unit sample_entries tt "dev2" = [].
Proof.
  apply (proj2 (no_conditions "easee" sample_status unit sample_entries tt
                  "dev2")).
  left. intros entry Hin. by apply elem_of_nil in Hin.
Defined.

Lemma round_to_dec_TypeError_witness :
  round_to_dec float_round_half_even float_round_decimal VNone (Some 1)
    (Some "W") = inl TypeError.
Proof.
  apply (proj2 (round_to_dec_TypeError float_round_half_even
                  float_round_decimal VNone (Some 1) (Some "W"))).
  split; left; reflexivity.
Defined.

(** ** State attributes and status: frame and composition *)

Section AttributesFrame.

Variable as_local : datetime -> datetime.
Variable float_round : float -> float_round_error + Z.
Variable float_round_ndigits : float -> Z -> float_round_error + float.

Lemma preserves_data_set_attr (self : ChargerEntity) (attrs : dict)
    (attr_key : string) :
  preserves_data
    (set_attr as_local float_round float_round_ndigits self attrs attr_key).
Proof.
  unfold set_attr.
  repeat (destruct (contains _ _); cbn [orb]);
    (apply preserves_data_bind;
     [apply preserves_data_get_value_from_key|intros v]);
    try frame_bind; auto with frame.
Qed.

Lemma preserves_data_set_attrs (self : ChargerEntity)
    (attrs_keys : list string) (attrs : dict) :
  preserves_data
    (set_attrs as_local float_round float_round_ndigits self attrs_keys attrs).
Proof.
  revert attrs.
  induction attrs_keys as [|attr_key rest IH]; intros attrs;
    cbn [set_attrs]; [auto with frame|].
  apply preserves_data_bind; [apply preserves_data_set_attr|].
  intros attrs'. apply IH.
Qed.

(** X27: reading the state attributes writes nothing: after
    [extra_state_attributes], whether it returned a dictionary or raised,
    every bucket of the data object is as it was. *)
Theorem extra_state_attributes_keeps_data (self : ChargerEntity)
    (_attrs_keys : list string) (name : string) (h : Heap) :
  data (snd (extra_state_attributes as_local float_round float_round_ndigits
               self _attrs_keys name h)) = data h.
Proof.
  revert h.
  change (preserves_data
            (extra_state_attributes as_local float_round float_round_ndigits
               self _attrs_keys name)).
  unfold extra_state_attributes. apply preserves_data_try_except.
  - frame_bind. apply preserves_data_set_attrs.
  - intros e. destruct e; auto with frame.
Qed.

End AttributesFrame.

Section StatusCompose.

Variable as_local : datetime -> datetime.
Variable EASEE_STATUS : list (Z * string).
Variable format_value : value -> string.

Lemma table_get_known (v : value) (k : Z) (default : string) :
  int_key v = Some k → k ∈ map fst EASEE_STATUS →
  table_get EASEE_STATUS v default ∈ CONDITION_TYPES EASEE_STATUS.
Proof.
  unfold table_get, CONDITION_TYPES. intros -> Hk.
  destruct (List.find _ EASEE_STATUS) as [item|] eqn:Hfind.
  - apply find_some in Hfind as [Hin _].
    apply list_elem_of_In, in_map. exact Hin.
  - apply list_elem_of_In, in_map_iff in Hk as (item & <- & Hin).
    apply (find_none _ _ Hfind) in Hin. cbn in Hin.
    by rewrite Z.eqb_refl in Hin.
Qed.

(** X28: the status sensor and the device conditions agree. When the
    value stored under the state key is a status code of [EASEE_STATUS] and
    the conversion is [map_charger_status], with no state function,
    [async_update] stores one of [CONDITION_TYPES]: a state that a device
    condition is offered for. *)
Theorem async_update_status (self : ChargerEntity) (h : Heap)
    (first second : string) (b : dict) (v : value) (k : Z) :
  split_dot (_state_key self) = [first; second] →
  bucket_named first (data h) = Some (Some b) →
  b !! second = Some v →
  int_key v = Some k →
  k ∈ map fst EASEE_STATUS →
  _state_func self = None →
  _convert_units_func self
  = Some (fun s unit =>
            inr (VStr (map_charger_status EASEE_STATUS format_value s unit))) →
  ∃ status,
    status ∈ CONDITION_TYPES EASEE_STATUS
    ∧ async_update as_local self h
      = (inr tt, with_state (VStr status) (entered self h)).
Proof.
  intros Hsplit Hb Hv Hkey Hk Hf Hc.
  exists (map_charger_status EASEE_STATUS format_value v (_units self)).
  split; [by apply (table_get_known v k)|].
  rewrite async_update_unfold. unfold try_except, update_state, bind.
  rewrite (get_value_from_key_outcome _ _ _ _ _ Hsplit).
  cbn [entered data with_state with_record]. rewrite Hb, Hv, Hf, Hc.
  assert (localize as_local v = v) as -> by by destruct v.
  cbn [put_state get_state fst snd with_state _state].
  assert (is_empty_str v = false) as -> by by destruct v.
  reflexivity.
Qed.

End StatusCompose.

Lemma async_update_status_witness :
  ∃ status,
    status ∈ CONDITION_TYPES sample_status
    ∧ async_update (as_local_fixed 60) status_sensor (heap_of status_data)
      = (inr tt,
         with_state (VStr status) (entered status_sensor (heap_of status_data))).
Proof.
  apply (async_update_status (as_local_fixed 60) sample_status
           (fun _ => "?") status_sensor (heap_of status_data) "state"
           "chargerOpMode" {[ "chargerOpMode" := VInt 3 ]} (VInt 3) 3);
    try reflexivity.
  cbn. elem_of_names.
Defined.

(** ** What get_value_from_key raises, the host's conversion included *)

Section DispatchHost.

Variable as_local : datetime -> result datetime.

Lemma get_value_from_key_host_outcome (key first second : string) (h : Heap) :
  split_dot key = [first; second] →
  get_value_from_key_host as_local key h =
    match bucket_named first (data h) with
    | None =>
        (inl (IndexError "Unknown first part of key"),
         with_record (unknown_prefix_record key) h)
    | Some None =>
        if named_in guarded_on_get first then (inr VNone, h)
        else (inl TypeError, h)
    | Some (Some b) =>
        match b !! second with
        | Some (VDatetime t) =>
            match as_local t with
            | inr t' => (inr (VDatetime t'), h)
            | inl (KeyError _) => (inr (VStr ""), h)
            | inl e => (inl e, h)
            end
        | Some v => (inr v, h)
        | None => (inr (VStr ""), h)
        end
    end.
Proof.
  intros Hsplit.
  unfold get_value_from_key_host, try_except, bind. rewrite Hsplit.
  unfold bucket_named, buckets, named_in, guarded_on_get. cbn.
  repeat (case_prefix; cbn;
          [match goal with
           | |- context [getitem (?f (data h)) second] =>
               destruct (f (data h)) as [b|]; cbn; [|reflexivity];
               destruct (b !! second) as [[| | | | |t]|]; cbn; try reflexivity;
               unfold lift; destruct (as_local t) as [[]|t']; reflexivity
           end|]).
  reflexivity.
Qed.


End DispatchHost.

(** With a conversion that always returns, the two embeddings of
    [get_value_from_key] are one. *)
Lemma get_value_from_key_host_total (as_local : datetime -> datetime)
    (key : string) (h : Heap) :
  get_value_from_key_host (fun t => inr (as_local t)) key h
  = get_value_from_key as_local key h.
Proof.
  destruct (decide (length (split_dot key) = 2%nat)) as [Hlen|Hlen].
  - destruct (split_dot key) as [|a [|c [|x l]]] eqn:Hsplit;
      try discriminate Hlen.
    rewrite (get_value_from_key_host_outcome _ _ _ _ _ Hsplit),
      (get_value_from_key_outcome _ _ _ _ _ Hsplit).
    destruct (bucket_named a (data h)) as [[b|]|]; try reflexivity.
    by destruct (b !! c) as [[| | | | |t]|].
  - unfold get_value_from_key_host, get_value_from_key, try_except, bind.
    by rewrite (unpack2_other _ h Hlen).
Qed.


(** ** Sample runs of the float rounding *)

Example float_round_decimal_large :
  float_round_decimal 1e22 1 = inr 1e22%float.
Proof. reflexivity. Qed.

Example float_round_decimal_ties :
  float_round_decimal 2.5 0 = inr 2%float
  ∧ float_round_decimal 3.5 0 = inr 4%float
  ∧ float_round_decimal 0.125 2 = inr (PrimFloat.div 12 100)
  ∧ float_round_decimal 1250 (-2) = inr 1200%float.
Proof. repeat split. Qed.

Example float_round_decimal_overflow :
  float_round_decimal 0x1.fffffffffffffp+1023 (-308) = inl FloatOverflow.
Proof. reflexivity. Qed.

Example float_round_half_even_ties :
  float_round_half_even 2.5 = inr 2
  ∧ float_round_half_even 3.5 = inr 4
  ∧ float_round_half_even (-0.5) = inr 0
  ∧ float_round_half_even infinity = inl FloatOverflow
  ∧ float_round_half_even nan = inl FloatNaN.
Proof. repeat split. Qed.
